(** * Taguchi loss functions: numeric core of
      [taguchi_loss_function] and [one_sided_loss_function]
      (taguchi_loss_function_function_development.ipynb).

    Number model.  The notebook computes with Python/numpy floats.  Here a
    finite float is an exact rational ([Q]); rounding error and overflow
    are abstracted away.  The one non-finite value the code can create from
    finite arguments is kept: the mean of an empty array is [nan], and
    [nan] propagates through arithmetic, makes every comparison false and
    rounds to itself.  Function arguments (limits, margins, k) and the
    observations of the sample are finite.

    The plotting calls (matplotlib / seaborn) draw a figure and do not
    change any value that is returned; they are left out.  The height
    [y_at_spec_limits] they are given is computed from the loss-curve frame
    alone and is modelled as a function of that frame.  The read of the
    local variable [slope] is kept, because in the one-sided function that
    variable can be unassigned. *)

From Stdlib Require Import QArith Qround Qpower Qabs Qminmax ZArith List String Bool Lia Lqa.
Import ListNotations.

Local Open Scope Q_scope.

(** ** Numbers *)

Module Num.

(** A float: a finite value or [nan]. *)
Inductive num : Type :=
| Fin (q : Q)
| NaN.

Definition lift2 (f : Q -> Q -> Q) (a b : num) : num :=
  match a, b with
  | Fin x, Fin y => Fin (f x y)
  | _, _ => NaN
  end.

Definition add := lift2 Qplus.
Definition sub := lift2 Qminus.
Definition mul := lift2 Qmult.

(** [a ** 2]. *)
Definition sqr (a : num) : num :=
  match a with
  | Fin x => Fin (x ^ 2)
  | NaN => NaN
  end.

(** Comparisons: any comparison with [nan] is [False]. *)
Definition leb (a b : num) : bool :=
  match a, b with
  | Fin x, Fin y => Qle_bool x y
  | _, _ => false
  end.

Definition ltb (a b : num) : bool :=
  match a, b with
  | Fin x, Fin y => negb (Qle_bool y x)
  | _, _ => false
  end.

Definition geb (a b : num) : bool := leb b a.

End Num.
Export Num.

(** [a <= b] and [a < b] on finite values, as booleans. *)
Definition Qleb (a b : Q) : bool := Qle_bool a b.
Definition Qltb (a b : Q) : bool := negb (Qle_bool b a).

(** ** Python builtins *)

(** Nearest integer, ties to even. *)
Definition round_half_even (x : Q) : Z :=
  let f := Qfloor x in
  match Qcompare (x - inject_Z f) (1 # 2) with
  | Lt => f
  | Gt => (f + 1)%Z
  | Eq => if Z.even f then f else (f + 1)%Z
  end.

(** [round(x, ndigits)] on a finite float. *)
Definition round (x : Q) (ndigits : Z) : Q :=
  inject_Z (round_half_even (x * (10 # 1) ^ ndigits)) / (10 # 1) ^ ndigits.

(** [round(x, ndigits)] on a float: [nan] rounds to itself. *)
Definition round_num (x : num) (ndigits : Z) : num :=
  match x with
  | Fin q => Fin (round q ndigits)
  | NaN => NaN
  end.

(** [max(a, b)]: the first argument unless the second is larger. *)
Definition py_max (a b : Q) : Q := if Qltb a b then b else a.

(** ** numpy *)

(** [np.linspace(start, stop, num)] with the default [endpoint=True]:
    [arange(num) * step + start] with [step = (stop - start) / (num - 1)],
    the last sample then overwritten with [stop]. *)
Definition linspace (start stop : Q) (num : nat) : list Q :=
  let div := (num - 1)%nat in
  let step := (stop - start) / inject_Z (Z.of_nat div) in
  map (fun i : nat =>
         if (Nat.eqb i div && Nat.ltb 1 num)%bool then stop
         else inject_Z (Z.of_nat i) * step + start)
      (seq 0 num).

Definition Qsum (l : list Q) : Q := fold_right Qplus 0 l.

(** [data.mean()]: [nan] for an empty array (0.0 / 0). *)
Definition mean (data : list Q) : num :=
  match data with
  | [] => NaN
  | _ :: _ => Fin (Qsum data / inject_Z (Z.of_nat (List.length data)))
  end.

(** ** Results *)

(** Python exceptions the numeric core can raise. *)
Inductive exn : Type :=
| UnboundLocalError (name : string).

Inductive result (A : Type) : Type :=
| Ok (a : A)
| Raise (e : exn).
Arguments Ok {A} a.
Arguments Raise {A} e.

(** The returned dictionary: ['Results'] is the two-column frame
    (Statistics, Values), ['Loss Curve'] the frame (x-values, y-values),
    both kept as lists of rows. *)
Record output_dict : Type := {
  Results : list (string * num);
  Loss_Curve : list (Q * Q)
}.

(** Value of the row of ['Results'] labelled [name]. *)
Fixpoint stat (name : string) (rows : list (string * num)) : option num :=
  match rows with
  | [] => None
  | (s, v) :: rest => if String.eqb s name then Some v else stat name rest
  end.

Definition mean_of (o : output_dict) : option num := stat "Mean" (Results o).
Definition slope_of (o : output_dict) : option num := stat "Slope at Ave." (Results o).
Definition loss_of (o : output_dict) : option num := stat "Ave. Loss" (Results o).

(** ** The two generators *)

Section Generators.

(** [data.std()] is a library routine (a square root; numpy and pandas
    differ in the divisor): it is taken as given. *)
Variable std_of : list Q -> num.

(** *** taguchi_loss_function *)

(** Body of the loop over [x_values]. *)
Definition taguchi_loss (USL LSL tolerance target value : Q) : Q :=
  if Qleb value LSL then tolerance * (target - LSL) ^ 2
  else if Qleb USL value then tolerance * (USL - target) ^ 2
  else tolerance * (value - target) ^ 2.

Definition taguchi_loss_function
    (data : list Q) (USL LSL k : Q) (round_value : Z) (spec_buffer : Q)
    : result output_dict :=
  let x_values := linspace (LSL - spec_buffer) (USL + spec_buffer) 500 in
  let tolerance := USL - LSL in
  let target := round (LSL + tolerance / 2) round_value in
  let result := map (taguchi_loss USL LSL tolerance target) x_values in
  let loss_curve_df := combine x_values result in
  let mean := round_num (mean data) round_value in
  let std := round_num (std_of data) round_value in
  let slope :=
    if (leb mean (Fin LSL) || geb mean (Fin USL))%bool then Fin 0
    else round_num (mul (Fin tolerance) (sqr (sub mean (Fin target)))) round_value in
  let loss :=
    round_num (add (mul (Fin k) (sqr std)) (sqr (sub mean (Fin target)))) round_value in
  Ok {| Results := [("Mean", mean); ("s", std); ("Ave. Loss", loss);
                    ("Slope at Ave.", slope)]%string;
        Loss_Curve := loss_curve_df |}.

(** *** one_sided_loss_function *)

(** Body of the loop over [x_values]. *)
Definition one_sided_loss (target spec_limit tolerance value : Q) : Q :=
  if Qleb spec_limit value then tolerance * (spec_limit - target) ^ 2
  else if Qleb value target then 0
  else tolerance * py_max 0 ((value - target) ^ 2).

Definition one_sided_loss_function
    (data : list Q) (target spec_limit k : Q) (round_value : Z)
    (below_target past_spec : Q) : result output_dict :=
  let x_values := linspace (target - below_target) (spec_limit + past_spec) 500 in
  let tolerance := spec_limit - target in
  let result := map (one_sided_loss target spec_limit tolerance) x_values in
  let loss_curve_df := combine x_values result in
  let mean := round_num (mean data) round_value in
  let std := round_num (std_of data) round_value in
  (* if / elif / elif with no else: [slope] may stay unassigned *)
  let slope : option num :=
    if leb mean (Fin target) then Some (Fin 0)
    else if (ltb (Fin target) mean && leb mean (Fin spec_limit))%bool
      then Some (mul (Fin tolerance) (sqr (sub mean (Fin target))))
    else if ltb (Fin spec_limit) mean then Some (Fin 0)
    else None in
  let loss :=
    if ltb mean (Fin target) then Fin 0
    else round_num (add (mul (Fin k) (sqr std)) (sqr (sub mean (Fin target)))) round_value in
  match slope with
  | None => Raise (UnboundLocalError "slope")
  | Some slope =>
      Ok {| Results := [("Mean", mean); ("s", std); ("Ave. Loss", loss);
                        ("Slope at Ave.", slope)]%string;
            Loss_Curve := loss_curve_df |}
  end.

End Generators.

(** ** pandas *)

(** Scan of [s.idxmin()]: [best] is the smallest value seen so far, found at
    position [best_i]; a later value replaces it only when strictly
    smaller, so the first occurrence of the minimum wins. *)
Fixpoint idxmin_from (s : list Q) (i best_i : nat) (best : Q) : nat :=
  match s with
  | [] => best_i
  | v :: rest =>
      if Qltb v best then idxmin_from rest (S i) i v
      else idxmin_from rest (S i) best_i best
  end.

(** [s.idxmin()] on the default index; [None] stands for the ValueError
    raised on an empty series. *)
Definition idxmin (s : list Q) : option nat :=
  match s with
  | [] => None
  | v :: rest => Some (idxmin_from rest 1 0 v)
  end.

(** [idx_closest = (loss_curve_df['x-values'] - 15).abs().idxmin()] followed
    by [loss_curve_df.loc[idx_closest, 'y-values']]: the height handed to the
    plot, computed the same way in both functions.  The constant 15 is the
    source's. *)
Definition y_at_spec_limits (loss_curve_df : list (Q * Q)) : option Q :=
  match idxmin (map (fun row => Qabs (fst row - 15)) loss_curve_df) with
  | Some idx_closest => option_map snd (nth_error loss_curve_df idx_closest)
  | None => None
  end.

(** ** Sanity checks on concrete inputs *)

Example round_tie_down : round (1 # 2) 0 == 0.
Proof. reflexivity. Qed.

Example round_tie_up : round (3 # 2) 0 == 2.
Proof. reflexivity. Qed.

Example round_quarter : round (1 # 4) 1 == 2 # 10.
Proof. reflexivity. Qed.

Example round_negative_digits : round 1250 (-2) == 1200.
Proof. reflexivity. Qed.

Example linspace_3 : linspace 0 1 3 = [0 * ((1 - 0) / 2) + 0; 1 * ((1 - 0) / 2) + 0; 1].
Proof. reflexivity. Qed.

(** ** Basic facts *)

Lemma Qleb_true (a b : Q) : Qleb a b = true <-> a <= b.
Proof. unfold Qleb. apply Qle_bool_iff. Qed.

Lemma Qleb_false (a b : Q) : Qleb a b = false <-> b < a.
Proof.
  unfold Qleb. split; intro H.
  - apply Qnot_le_lt. intro Hle. apply Qle_bool_iff in Hle. congruence.
  - destruct (Qle_bool a b) eqn:E; [|reflexivity].
    apply Qle_bool_iff in E. exfalso. apply (Qlt_not_le _ _ H E).
Qed.

Lemma Qltb_true (a b : Q) : Qltb a b = true <-> a < b.
Proof.
  unfold Qltb. rewrite negb_true_iff. apply (Qleb_false b a).
Qed.

Lemma Qltb_false (a b : Q) : Qltb a b = false <-> b <= a.
Proof.
  unfold Qltb. rewrite negb_false_iff. apply (Qleb_true b a).
Qed.

Lemma linspace_length (start stop : Q) (n : nat) :
  List.length (linspace start stop n) = n.
Proof. unfold linspace. now rewrite length_map, length_seq. Qed.

(** A frame built from a column and its image under [f]. *)
Section Frame.
Variable f : Q -> Q.

Lemma frame_length (xs : list Q) :
  List.length (combine xs (map f xs)) = List.length xs.
Proof. rewrite length_combine, length_map. apply Nat.min_id. Qed.

Lemma frame_x_values (xs : list Q) : map fst (combine xs (map f xs)) = xs.
Proof. induction xs as [|x xs IH]; simpl; [reflexivity | now rewrite IH]. Qed.

Lemma frame_rows (xs : list Q) :
  Forall (fun xy => snd xy = f (fst xy)) (combine xs (map f xs)).
Proof. induction xs as [|x xs IH]; simpl; constructor; auto. Qed.

Lemma frame_rows_prop (P : Q * Q -> Prop) (xs : list Q) :
  (forall x, P (x, f x)) -> Forall P (combine xs (map f xs)).
Proof. intros HP. induction xs as [|x xs IH]; simpl; constructor; auto. Qed.
End Frame.

(** The loop bodies, case by case. *)

Lemma taguchi_loss_low (USL LSL tol target x : Q) :
  x <= LSL -> taguchi_loss USL LSL tol target x = tol * (target - LSL) ^ 2.
Proof. intro H. unfold taguchi_loss. apply Qleb_true in H. now rewrite H. Qed.

Lemma taguchi_loss_high (USL LSL tol target x : Q) :
  LSL < x -> USL <= x ->
  taguchi_loss USL LSL tol target x = tol * (USL - target) ^ 2.
Proof.
  intros H1 H2. unfold taguchi_loss.
  apply Qleb_false in H1. apply Qleb_true in H2. now rewrite H1, H2.
Qed.

Lemma taguchi_loss_mid (USL LSL tol target x : Q) :
  LSL < x -> x < USL ->
  taguchi_loss USL LSL tol target x = tol * (x - target) ^ 2.
Proof.
  intros H1 H2. unfold taguchi_loss.
  apply Qleb_false in H1. apply Qleb_false in H2. now rewrite H1, H2.
Qed.

Lemma one_sided_loss_high (target spec_limit tol x : Q) :
  spec_limit <= x ->
  one_sided_loss target spec_limit tol x = tol * (spec_limit - target) ^ 2.
Proof. intro H. unfold one_sided_loss. apply Qleb_true in H. now rewrite H. Qed.

Lemma one_sided_loss_low (target spec_limit tol x : Q) :
  x < spec_limit -> x <= target -> one_sided_loss target spec_limit tol x = 0.
Proof.
  intros H1 H2. unfold one_sided_loss.
  apply Qleb_false in H1. apply Qleb_true in H2. now rewrite H1, H2.
Qed.

Lemma one_sided_loss_mid (target spec_limit tol x : Q) :
  target < x -> x < spec_limit ->
  one_sided_loss target spec_limit tol x = tol * py_max 0 ((x - target) ^ 2).
Proof.
  intros H1 H2. unfold one_sided_loss.
  apply Qleb_false in H1. apply Qleb_false in H2. now rewrite H2, H1.
Qed.

Lemma Qsqr_nonneg (a : Q) : 0 <= a ^ 2.
Proof. simpl. nra. Qed.

Lemma py_max_nonneg (b : Q) : 0 <= py_max 0 b.
Proof.
  unfold py_max. destruct (Qltb 0 b) eqn:E.
  - apply Qltb_true in E. lra.
  - lra.
Qed.

Lemma mean_nonempty (data : list Q) :
  data <> [] -> exists q, mean data = Fin q.
Proof. destruct data as [|x xs]; [congruence | intros _; eexists; reflexivity]. Qed.

Lemma leb_Fin (a b : Q) : leb (Fin a) (Fin b) = Qleb a b.
Proof. reflexivity. Qed.

Lemma geb_Fin (a b : Q) : geb (Fin a) (Fin b) = Qleb b a.
Proof. reflexivity. Qed.

Lemma ltb_Fin (a b : Q) : ltb (Fin a) (Fin b) = Qltb a b.
Proof. reflexivity. Qed.

(** With a finite mean, one of the three slope branches of the one-sided
    function is always taken. *)
Lemma one_sided_returns (std_of : list Q -> num) (data : list Q)
    (target spec_limit k : Q) (round_value : Z) (below_target past_spec : Q) :
  data <> [] ->
  exists out,
    one_sided_loss_function std_of data target spec_limit k round_value
      below_target past_spec = Ok out /\
    Loss_Curve out =
      (let x_values := linspace (target - below_target) (spec_limit + past_spec) 500 in
       combine x_values
         (map (one_sided_loss target spec_limit (spec_limit - target)) x_values)).
Proof.
  intros Hne. destruct (mean_nonempty data Hne) as [q Hq].
  unfold one_sided_loss_function. rewrite Hq. cbn [round_num].
  rewrite !leb_Fin, !ltb_Fin.
  set (m := round q round_value).
  destruct (Qleb m target) eqn:E1; [eexists; split; reflexivity|].
  destruct (Qltb target m && Qleb m spec_limit)%bool eqn:E2;
    [eexists; split; reflexivity|].
  destruct (Qltb spec_limit m) eqn:E3; [eexists; split; reflexivity|].
  exfalso. apply Qleb_false in E1. apply Qltb_false in E3.
  apply andb_false_iff in E2. destruct E2 as [E2|E2].
  - apply Qltb_false in E2. lra.
  - apply Qleb_false in E2. lra.
Qed.

(** With an empty sample no branch assigns [slope]: reading it raises. *)
Lemma one_sided_empty_unbound (std_of : list Q -> num)
    (target spec_limit k : Q) (round_value : Z) (below_target past_spec : Q) :
  one_sided_loss_function std_of [] target spec_limit k round_value
    below_target past_spec = Raise (UnboundLocalError "slope").
Proof. reflexivity. Qed.

(** ** The loss curves *)

(** C1. For USL > LSL the two-sided generator uses tolerance = USL - LSL and
    target = round(LSL + tolerance/2, precision); its curve has the x-values
    of the linspace, and every row (x, y) has y = tolerance*(target-LSL)^2
    if x <= LSL, y = tolerance*(USL-target)^2 if x >= USL, and
    y = tolerance*(x-target)^2 otherwise. *)
Theorem taguchi_curve_piecewise (std_of : list Q -> num) (data : list Q)
    (USL LSL k : Q) (round_value : Z) (spec_buffer : Q) :
  LSL < USL ->
  let tolerance := USL - LSL in
  let target := round (LSL + tolerance / 2) round_value in
  exists out,
    taguchi_loss_function std_of data USL LSL k round_value spec_buffer = Ok out /\
    map fst (Loss_Curve out) = linspace (LSL - spec_buffer) (USL + spec_buffer) 500 /\
    Forall (fun xy : Q * Q =>
              let (x, y) := xy in
              (x <= LSL -> y = tolerance * (target - LSL) ^ 2) /\
              (USL <= x -> y = tolerance * (USL - target) ^ 2) /\
              (LSL < x /\ x < USL -> y = tolerance * (x - target) ^ 2))
           (Loss_Curve out).
Proof.
  intros Hrange tolerance target.
  eexists. split; [reflexivity|]. cbn [Loss_Curve]. split.
  - apply frame_x_values.
  - apply frame_rows_prop. intro x. repeat split.
    + apply taguchi_loss_low.
    + intro H. apply taguchi_loss_high; lra.
    + intros [H1 H2]. now apply taguchi_loss_mid.
Qed.

Lemma taguchi_curve_piecewise_witness :
  exists out,
    taguchi_loss_function (fun _ => Fin 2) [13; 17] 20 10 1 1 2 = Ok out /\
    map fst (Loss_Curve out) = linspace (10 - 2) (20 + 2) 500 /\
    Forall (fun xy : Q * Q =>
              let (x, y) := xy in
              (x <= 10 -> y = (20 - 10) * (round (10 + (20 - 10) / 2) 1 - 10) ^ 2) /\
              (20 <= x -> y = (20 - 10) * (20 - round (10 + (20 - 10) / 2) 1) ^ 2) /\
              (10 < x /\ x < 20 -> y = (20 - 10) * (x - round (10 + (20 - 10) / 2) 1) ^ 2))
           (Loss_Curve out).
Proof.
  apply (taguchi_curve_piecewise (fun _ => Fin 2) [13; 17] 20 10 1 1 2).
  reflexivity.
Defined.

(** C2. For specification limit > target every row (x, y) of the one-sided
    curve has y = 0 if x <= target, the cap tolerance*(spec_limit-target)^2
    if x >= spec_limit, and y = tolerance*max(0,(x-target)^2) in between,
    with tolerance = spec_limit - target.  The curve is the table returned
    for every non-empty sample. *)
Theorem one_sided_curve_piecewise (std_of : list Q -> num) (data : list Q)
    (target spec_limit k : Q) (round_value : Z) (below_target past_spec : Q) :
  target < spec_limit -> data <> [] ->
  let tolerance := spec_limit - target in
  exists out,
    one_sided_loss_function std_of data target spec_limit k round_value
      below_target past_spec = Ok out /\
    map fst (Loss_Curve out) =
      linspace (target - below_target) (spec_limit + past_spec) 500 /\
    Forall (fun xy : Q * Q =>
              let (x, y) := xy in
              (x <= target -> y = 0) /\
              (spec_limit <= x -> y = tolerance * (spec_limit - target) ^ 2) /\
              (target < x /\ x < spec_limit ->
               y = tolerance * py_max 0 ((x - target) ^ 2)))
           (Loss_Curve out).
Proof.
  intros Hrange Hne tolerance.
  destruct (one_sided_returns std_of data target spec_limit k round_value
              below_target past_spec Hne) as [out [Hout Hcurve]].
  exists out. split; [exact Hout|]. rewrite Hcurve. cbv zeta. split.
  - apply frame_x_values.
  - apply frame_rows_prop. intro x. repeat split.
    + intro H. apply one_sided_loss_low; lra.
    + apply one_sided_loss_high.
    + intros [H1 H2]. now apply one_sided_loss_mid.
Qed.

Lemma one_sided_curve_piecewise_witness :
  exists out,
    one_sided_loss_function (fun _ => Fin 1) [5] 0 10 1 1 5 5 = Ok out /\
    map fst (Loss_Curve out) = linspace (0 - 5) (10 + 5) 500 /\
    Forall (fun xy : Q * Q =>
              let (x, y) := xy in
              (x <= 0 -> y = 0) /\
              (10 <= x -> y = (10 - 0) * (10 - 0) ^ 2) /\
              (0 < x /\ x < 10 -> y = (10 - 0) * py_max 0 ((x - 0) ^ 2)))
           (Loss_Curve out).
Proof.
  apply (one_sided_curve_piecewise (fun _ => Fin 1) [5] 0 10 1 1 5 5).
  - reflexivity.
  - discriminate.
Defined.

(** ** The statistics table *)

Section Rows.
Variables mean std loss slope : num.
Let rows : list (string * num) :=
  [("Mean", mean); ("s", std); ("Ave. Loss", loss); ("Slope at Ave.", slope)]%string.

Lemma stat_mean : stat "Mean" rows = Some mean.
Proof. reflexivity. Qed.

Lemma stat_loss : stat "Ave. Loss" rows = Some loss.
Proof. reflexivity. Qed.

Lemma stat_slope : stat "Slope at Ave." rows = Some slope.
Proof. reflexivity. Qed.
End Rows.

(** C4. Two-sided generator, non-empty sample, m the rounded mean: the slope
    row is 0 when m <= LSL or m >= USL (a mean exactly on a limit counts as
    outside), and round(tolerance*(m-target)^2, precision) when
    LSL < m < USL. *)
Theorem taguchi_slope_at_mean (std_of : list Q -> num) (data : list Q)
    (USL LSL k : Q) (round_value : Z) (spec_buffer : Q) :
  data <> [] ->
  let tolerance := USL - LSL in
  let target := round (LSL + tolerance / 2) round_value in
  exists m out,
    round_num (mean data) round_value = Fin m /\
    taguchi_loss_function std_of data USL LSL k round_value spec_buffer = Ok out /\
    mean_of out = Some (Fin m) /\
    (m <= LSL \/ USL <= m -> slope_of out = Some (Fin 0)) /\
    (LSL < m /\ m < USL ->
     slope_of out = Some (Fin (round (tolerance * (m - target) ^ 2) round_value))).
Proof.
  intros Hne tolerance target.
  destruct (mean_nonempty data Hne) as [q Hq].
  unfold taguchi_loss_function. rewrite Hq. cbn [round_num].
  set (m := round q round_value).
  exists m. eexists. split; [reflexivity|]. split; [reflexivity|].
  unfold mean_of, slope_of. cbn [Results].
  rewrite stat_mean, stat_slope, leb_Fin, geb_Fin.
  split; [reflexivity|]. split.
  - intros [H|H]; apply Qleb_true in H; rewrite H.
    + reflexivity.
    + now rewrite orb_true_r.
  - intros [H1 H2]. apply Qleb_false in H1. apply Qleb_false in H2.
    rewrite H1, H2. reflexivity.
Qed.

Lemma taguchi_slope_at_mean_witness :
  exists m out,
    round_num (mean [20]) 1 = Fin m /\
    taguchi_loss_function (fun _ => Fin 2) [20] 20 10 1 1 2 = Ok out /\
    mean_of out = Some (Fin m) /\
    (m <= 10 \/ 20 <= m -> slope_of out = Some (Fin 0)) /\
    (10 < m /\ m < 20 ->
     slope_of out =
       Some (Fin (round ((20 - 10) * (m - round (10 + (20 - 10) / 2) 1) ^ 2) 1))).
Proof.
  apply (taguchi_slope_at_mean (fun _ => Fin 2) [20] 20 10 1 1 2).
  discriminate.
Defined.

(** C5. One-sided generator, non-empty sample, m the rounded mean,
    tolerance = spec_limit - target: the slope row is 0 when m <= target,
    tolerance*(m-target)^2 when target < m <= spec_limit, and 0 when
    m > spec_limit. *)
Theorem one_sided_slope_at_mean (std_of : list Q -> num) (data : list Q)
    (target spec_limit k : Q) (round_value : Z) (below_target past_spec : Q) :
  data <> [] ->
  let tolerance := spec_limit - target in
  exists m out,
    round_num (mean data) round_value = Fin m /\
    one_sided_loss_function std_of data target spec_limit k round_value
      below_target past_spec = Ok out /\
    mean_of out = Some (Fin m) /\
    (m <= target -> slope_of out = Some (Fin 0)) /\
    (target < m /\ m <= spec_limit ->
     slope_of out = Some (Fin (tolerance * (m - target) ^ 2))) /\
    (spec_limit < m -> slope_of out = Some (Fin 0)).
Proof.
  intros Hne tolerance.
  destruct (mean_nonempty data Hne) as [q Hq].
  unfold one_sided_loss_function. rewrite Hq. cbn [round_num].
  rewrite !leb_Fin, !ltb_Fin.
  set (m := round q round_value). exists m.
  destruct (Qleb m target) eqn:E1.
  { apply Qleb_true in E1.
    eexists. split; [reflexivity|]. split; [reflexivity|].
    unfold mean_of, slope_of. cbn [Results]. rewrite stat_mean, stat_slope.
    repeat split; try reflexivity; intros; exfalso; lra. }
  apply Qleb_false in E1.
  destruct (Qleb m spec_limit) eqn:E2.
  - apply Qleb_true in E2. apply Qltb_true in E1. rewrite E1. cbn [andb].
    eexists. split; [reflexivity|]. split; [reflexivity|].
    unfold mean_of, slope_of. cbn [Results]. rewrite stat_mean, stat_slope.
    apply Qltb_true in E1.
    repeat split; try reflexivity; intros; exfalso; lra.
  - apply Qleb_false in E2. rewrite andb_false_r.
    apply Qltb_true in E2. rewrite E2.
    eexists. split; [reflexivity|]. split; [reflexivity|].
    unfold mean_of, slope_of. cbn [Results]. rewrite stat_mean, stat_slope.
    apply Qltb_true in E2.
    repeat split; try reflexivity; intros; exfalso; lra.
Qed.

Lemma one_sided_slope_at_mean_witness :
  exists m out,
    round_num (mean [5]) 1 = Fin m /\
    one_sided_loss_function (fun _ => Fin 1) [5] 0 10 1 1 5 5 = Ok out /\
    mean_of out = Some (Fin m) /\
    (m <= 0 -> slope_of out = Some (Fin 0)) /\
    (0 < m /\ m <= 10 -> slope_of out = Some (Fin ((10 - 0) * (m - 0) ^ 2))) /\
    (10 < m -> slope_of out = Some (Fin 0)).
Proof.
  apply (one_sided_slope_at_mean (fun _ => Fin 1) [5] 0 10 1 1 5 5).
  discriminate.
Defined.

(** C6 as stated (slope 0 when the rounded mean equals the specification
    limit) fails: target 0, limit 10, the one observation 10.  The rounded
    mean is 10 and the slope row is 10 * (10 - 0)^2, not 0. *)
Lemma one_sided_slope_at_limit_counterexample :
  exists m out s,
    round_num (mean [10]) 1 = Fin m /\ m == 10 /\
    one_sided_loss_function (fun _ => Fin 0) [10] 0 10 1 1 5 5 = Ok out /\
    slope_of out = Some (Fin s) /\ s == 1000 /\ ~ s == 0.
Proof.
  do 3 eexists. split; [reflexivity|]. split; [reflexivity|].
  split; [reflexivity|]. split; [reflexivity|].
  split; [reflexivity | discriminate].
Qed.

(** C6, amended.  With specification limit > target, a rounded mean equal to
    the specification limit falls in the branch [target < mean <= spec_limit]:
    the slope row is tolerance*(mean-target)^2, equal to the cap
    tolerance*(spec_limit-target)^2 and strictly positive. *)
Theorem one_sided_slope_at_limit (std_of : list Q -> num) (data : list Q)
    (target spec_limit k : Q) (round_value : Z) (below_target past_spec m : Q) :
  round_num (mean data) round_value = Fin m ->
  m == spec_limit -> target < spec_limit ->
  let tolerance := spec_limit - target in
  exists out,
    one_sided_loss_function std_of data target spec_limit k round_value
      below_target past_spec = Ok out /\
    slope_of out = Some (Fin (tolerance * (m - target) ^ 2)) /\
    tolerance * (m - target) ^ 2 == tolerance * (spec_limit - target) ^ 2 /\
    0 < tolerance * (m - target) ^ 2.
Proof.
  intros Hm Heq Hrange tolerance.
  unfold one_sided_loss_function. rewrite Hm. rewrite !leb_Fin, !ltb_Fin.
  assert (E1 : Qleb m target = false) by (apply Qleb_false; lra).
  assert (E2 : Qltb target m = true) by (apply Qltb_true; lra).
  assert (E3 : Qleb m spec_limit = true) by (apply Qleb_true; lra).
  rewrite E1, E2, E3. cbn [andb].
  eexists. split; [reflexivity|].
  unfold slope_of. cbn [Results]. rewrite stat_slope.
  split; [reflexivity|]. split.
  - now rewrite Heq.
  - subst tolerance. simpl.
    repeat apply Qmult_lt_0_compat; lra.
Qed.

Lemma one_sided_slope_at_limit_witness :
  exists out,
    one_sided_loss_function (fun _ => Fin 0) [10] 0 10 1 1 5 5 = Ok out /\
    slope_of out = Some (Fin ((10 - 0) * (round (10 / 1) 1 - 0) ^ 2)) /\
    (10 - 0) * (round (10 / 1) 1 - 0) ^ 2 == (10 - 0) * (10 - 0) ^ 2 /\
    0 < (10 - 0) * (round (10 / 1) 1 - 0) ^ 2.
Proof.
  apply (one_sided_slope_at_limit (fun _ => Fin 0) [10] 0 10 1 1 5 5
           (round (10 / 1) 1)).
  - reflexivity.
  - reflexivity.
  - reflexivity.
Defined.

(** ** Shape of the two-sided curve *)

(** Every row of the two-sided table is the loop body at its x. *)
Lemma taguchi_rows (std_of : list Q -> num) (data : list Q)
    (USL LSL k : Q) (round_value : Z) (spec_buffer : Q) :
  exists out,
    taguchi_loss_function std_of data USL LSL k round_value spec_buffer = Ok out /\
    List.length (Loss_Curve out) = 500%nat /\
    forall x y, In (x, y) (Loss_Curve out) ->
      y = taguchi_loss USL LSL (USL - LSL)
            (round (LSL + (USL - LSL) / 2) round_value) x.
Proof.
  eexists. split; [reflexivity|]. cbn [Loss_Curve]. split.
  - rewrite frame_length. apply linspace_length.
  - intros x y Hin.
    pose proof (frame_rows
      (taguchi_loss USL LSL (USL - LSL) (round (LSL + (USL - LSL) / 2) round_value))
      (linspace (LSL - spec_buffer) (USL + spec_buffer) 500)) as Hrows.
    rewrite Forall_forall in Hrows. exact (Hrows (x, y) Hin).
Qed.

(** C7 as stated (symmetry around target over the whole sampled domain)
    fails: LSL 0, USL 1, precision 0, buffer 249.  The x-values are the
    integers -249 .. 250; the midpoint 0.5 rounds to target 0 (ties to
    even); rows 248 and 250 sit at target - 1 and target + 1 and carry the
    losses 0 and 1. *)
Lemma taguchi_symmetry_counterexample :
  exists out p1 p2,
    taguchi_loss_function (fun _ => Fin 0) [1] 1 0 1 0 249 = Ok out /\
    nth_error (Loss_Curve out) 248 = Some p1 /\
    nth_error (Loss_Curve out) 250 = Some p2 /\
    fst p1 == round (0 + (1 - 0) / 2) 0 - 1 /\
    fst p2 == round (0 + (1 - 0) / 2) 0 + 1 /\
    snd p1 == 0 /\ snd p2 == 1 /\ ~ snd p1 == snd p2.
Proof.
  do 3 eexists. split; [reflexivity|].
  split; [lazy; reflexivity|]. split; [lazy; reflexivity|].
  repeat split; try reflexivity. discriminate.
Qed.

(** C7, amended.  For USL > LSL the curve is flat outside the limits: every
    row with x <= LSL carries tolerance*(target-LSL)^2, the loss at LSL, and
    every row with x >= USL carries tolerance*(USL-target)^2, the loss at
    USL.  Symmetry holds between deviations as the loop computes them: two
    rows strictly between the limits carry equal losses when
    x1 - target = -(x2 - target), and the two flat values are equal when
    target - LSL = USL - target. *)
Theorem taguchi_curve_flat_and_symmetric (std_of : list Q -> num) (data : list Q)
    (USL LSL k : Q) (round_value : Z) (spec_buffer : Q) :
  LSL < USL ->
  let tolerance := USL - LSL in
  let target := round (LSL + tolerance / 2) round_value in
  exists out,
    taguchi_loss_function std_of data USL LSL k round_value spec_buffer = Ok out /\
    (forall x y, In (x, y) (Loss_Curve out) -> x <= LSL ->
       y = tolerance * (target - LSL) ^ 2 /\
       y = taguchi_loss USL LSL tolerance target LSL) /\
    (forall x y, In (x, y) (Loss_Curve out) -> USL <= x ->
       y = tolerance * (USL - target) ^ 2 /\
       y = taguchi_loss USL LSL tolerance target USL) /\
    (forall x1 y1 x2 y2,
       In (x1, y1) (Loss_Curve out) -> In (x2, y2) (Loss_Curve out) ->
       LSL < x1 /\ x1 < USL -> LSL < x2 /\ x2 < USL ->
       x1 - target == - (x2 - target) ->
       y1 == y2) /\
    (forall x1 y1 x2 y2,
       In (x1, y1) (Loss_Curve out) -> In (x2, y2) (Loss_Curve out) ->
       x1 <= LSL -> USL <= x2 ->
       target - LSL == USL - target ->
       y1 == y2).
Proof.
  intros Hrange tolerance target.
  destruct (taguchi_rows std_of data USL LSL k round_value spec_buffer)
    as [out [Hout [_ Hrows]]].
  fold tolerance in Hrows. fold target in Hrows.
  clearbody target. clearbody tolerance.
  exists out. split; [exact Hout|]. split; [|split; [|split]].
  - intros x y Hin Hx. rewrite (Hrows x y Hin).
    rewrite !taguchi_loss_low by lra. split; reflexivity.
  - intros x y Hin Hx. rewrite (Hrows x y Hin).
    rewrite !taguchi_loss_high by lra. split; reflexivity.
  - intros x1 y1 x2 y2 Hin1 Hin2 [L1 U1] [L2 U2] Hdev.
    rewrite (Hrows x1 y1 Hin1), (Hrows x2 y2 Hin2).
    rewrite !taguchi_loss_mid by assumption.
    rewrite Hdev. simpl. ring.
  - intros x1 y1 x2 y2 Hin1 Hin2 L1 U2 Hdev.
    rewrite (Hrows x1 y1 Hin1), (Hrows x2 y2 Hin2).
    rewrite (taguchi_loss_low _ _ _ _ x1) by assumption.
    rewrite (taguchi_loss_high _ _ _ _ x2) by lra.
    now rewrite Hdev.
Qed.

Lemma taguchi_curve_flat_and_symmetric_witness :
  exists out,
    taguchi_loss_function (fun _ => Fin 2) [13; 17] 20 10 1 1 2 = Ok out /\
    (forall x y, In (x, y) (Loss_Curve out) -> x <= 10 ->
       y = (20 - 10) * (round (10 + (20 - 10) / 2) 1 - 10) ^ 2 /\
       y = taguchi_loss 20 10 (20 - 10) (round (10 + (20 - 10) / 2) 1) 10) /\
    (forall x y, In (x, y) (Loss_Curve out) -> 20 <= x ->
       y = (20 - 10) * (20 - round (10 + (20 - 10) / 2) 1) ^ 2 /\
       y = taguchi_loss 20 10 (20 - 10) (round (10 + (20 - 10) / 2) 1) 20) /\
    (forall x1 y1 x2 y2,
       In (x1, y1) (Loss_Curve out) -> In (x2, y2) (Loss_Curve out) ->
       10 < x1 /\ x1 < 20 -> 10 < x2 /\ x2 < 20 ->
       x1 - round (10 + (20 - 10) / 2) 1 == - (x2 - round (10 + (20 - 10) / 2) 1) ->
       y1 == y2) /\
    (forall x1 y1 x2 y2,
       In (x1, y1) (Loss_Curve out) -> In (x2, y2) (Loss_Curve out) ->
       x1 <= 10 -> 20 <= x2 ->
       round (10 + (20 - 10) / 2) 1 - 10 == 20 - round (10 + (20 - 10) / 2) 1 ->
       y1 == y2).
Proof.
  apply (taguchi_curve_flat_and_symmetric (fun _ => Fin 2) [13; 17] 20 10 1 1 2).
  reflexivity.
Defined.

(** ** Non-negativity and independence from the sample *)

Lemma taguchi_loss_nonneg (USL LSL tol target x : Q) :
  0 <= tol -> 0 <= taguchi_loss USL LSL tol target x.
Proof.
  intro Htol. unfold taguchi_loss.
  destruct (Qleb x LSL); [|destruct (Qleb USL x)];
    apply Qmult_le_0_compat; auto using Qsqr_nonneg.
Qed.

Lemma one_sided_loss_nonneg (target spec_limit tol x : Q) :
  0 <= tol -> 0 <= one_sided_loss target spec_limit tol x.
Proof.
  intro Htol. unfold one_sided_loss.
  destruct (Qleb spec_limit x); [|destruct (Qleb x target)].
  - apply Qmult_le_0_compat; auto using Qsqr_nonneg.
  - lra.
  - apply Qmult_le_0_compat; auto using py_max_nonneg.
Qed.

(** Whatever the sample, a table returned by the one-sided function is the
    loop's table. *)
Lemma one_sided_Ok_curve (std_of : list Q -> num) (data : list Q)
    (target spec_limit k : Q) (round_value : Z) (below_target past_spec : Q)
    (out : output_dict) :
  one_sided_loss_function std_of data target spec_limit k round_value
    below_target past_spec = Ok out ->
  Loss_Curve out =
    (let x_values := linspace (target - below_target) (spec_limit + past_spec) 500 in
     combine x_values
       (map (one_sided_loss target spec_limit (spec_limit - target)) x_values)).
Proof.
  unfold one_sided_loss_function.
  destruct (leb _ _); [intro H; injection H as <-; reflexivity|].
  destruct (_ && _)%bool; [intro H; injection H as <-; reflexivity|].
  destruct (ltb _ _); [intro H; injection H as <-; reflexivity|].
  discriminate.
Qed.

(** C8. For USL > LSL every y-value of the table returned by the two-sided
    generator is non-negative; for specification limit > target so is every
    y-value of any table returned by the one-sided generator, and a table is
    returned for every non-empty sample. *)
Theorem loss_curve_nonneg (std_of : list Q -> num) (data : list Q)
    (USL LSL target spec_limit k : Q) (round_value : Z)
    (spec_buffer below_target past_spec : Q) :
  LSL < USL -> target < spec_limit ->
  (exists out,
     taguchi_loss_function std_of data USL LSL k round_value spec_buffer = Ok out /\
     Forall (fun xy => 0 <= snd xy) (Loss_Curve out)) /\
  (forall out,
     one_sided_loss_function std_of data target spec_limit k round_value
       below_target past_spec = Ok out ->
     Forall (fun xy => 0 <= snd xy) (Loss_Curve out)) /\
  (data <> [] ->
   exists out,
     one_sided_loss_function std_of data target spec_limit k round_value
       below_target past_spec = Ok out).
Proof.
  intros H2 H1. split; [|split].
  - eexists. split; [reflexivity|]. cbn [Loss_Curve].
    apply frame_rows_prop. intro x. cbn [snd].
    apply taguchi_loss_nonneg. lra.
  - intros out Hout. rewrite (one_sided_Ok_curve _ _ _ _ _ _ _ _ _ Hout).
    cbv zeta. apply frame_rows_prop. intro x. cbn [snd].
    apply one_sided_loss_nonneg. lra.
  - intro Hne.
    destruct (one_sided_returns std_of data target spec_limit k round_value
                below_target past_spec Hne) as [out [Hout _]].
    now exists out.
Qed.

Lemma loss_curve_nonneg_witness :
  (exists out,
     taguchi_loss_function (fun _ => Fin 1) [5] 20 10 1 1 2 = Ok out /\
     Forall (fun xy => 0 <= snd xy) (Loss_Curve out)) /\
  (forall out,
     one_sided_loss_function (fun _ => Fin 1) [5] 0 10 1 1 5 5 = Ok out ->
     Forall (fun xy => 0 <= snd xy) (Loss_Curve out)) /\
  ([5] <> [] ->
   exists out,
     one_sided_loss_function (fun _ => Fin 1) [5] 0 10 1 1 5 5 = Ok out).
Proof.
  apply (loss_curve_nonneg (fun _ => Fin 1) [5] 20 10 0 10 1 1 2 5 5).
  - reflexivity.
  - reflexivity.
Defined.

(** C10. With the same limits, margins and precision, two calls on any two
    non-empty samples (and any k) return the same loss-curve table, of 500
    rows; this holds for both generators. *)
Theorem loss_curve_independent_of_sample
    (std1 std2 : list Q -> num) (data1 data2 : list Q)
    (USL LSL target spec_limit k1 k2 : Q) (round_value : Z)
    (spec_buffer below_target past_spec : Q) :
  data1 <> [] -> data2 <> [] ->
  (exists o1 o2,
     taguchi_loss_function std1 data1 USL LSL k1 round_value spec_buffer = Ok o1 /\
     taguchi_loss_function std2 data2 USL LSL k2 round_value spec_buffer = Ok o2 /\
     Loss_Curve o1 = Loss_Curve o2 /\
     List.length (Loss_Curve o1) = 500%nat) /\
  (exists o1 o2,
     one_sided_loss_function std1 data1 target spec_limit k1 round_value
       below_target past_spec = Ok o1 /\
     one_sided_loss_function std2 data2 target spec_limit k2 round_value
       below_target past_spec = Ok o2 /\
     Loss_Curve o1 = Loss_Curve o2 /\
     List.length (Loss_Curve o1) = 500%nat).
Proof.
  intros Hne1 Hne2. split.
  - do 2 eexists. split; [reflexivity|]. split; [reflexivity|].
    cbn [Loss_Curve]. split; [reflexivity|].
    rewrite frame_length. apply linspace_length.
  - destruct (one_sided_returns std1 data1 target spec_limit k1 round_value
                below_target past_spec Hne1) as [o1 [Ho1 Hc1]].
    destruct (one_sided_returns std2 data2 target spec_limit k2 round_value
                below_target past_spec Hne2) as [o2 [Ho2 Hc2]].
    exists o1, o2. split; [exact Ho1|]. split; [exact Ho2|].
    rewrite Hc1, Hc2. split; [reflexivity|].
    cbv zeta. rewrite frame_length. apply linspace_length.
Qed.

Lemma loss_curve_independent_of_sample_witness :
  (exists o1 o2,
     taguchi_loss_function (fun _ => Fin 2) [13; 17] 20 10 1 1 2 = Ok o1 /\
     taguchi_loss_function (fun _ => Fin 0) [25] 20 10 3 1 2 = Ok o2 /\
     Loss_Curve o1 = Loss_Curve o2 /\
     List.length (Loss_Curve o1) = 500%nat) /\
  (exists o1 o2,
     one_sided_loss_function (fun _ => Fin 2) [13; 17] 0 10 1 1 5 5 = Ok o1 /\
     one_sided_loss_function (fun _ => Fin 0) [25] 0 10 3 1 5 5 = Ok o2 /\
     Loss_Curve o1 = Loss_Curve o2 /\
     List.length (Loss_Curve o1) = 500%nat).
Proof.
  apply (loss_curve_independent_of_sample (fun _ => Fin 2) (fun _ => Fin 0)
           [13; 17] [25] 20 10 0 10 1 3 1 2 5 5); discriminate.
Defined.

(** ** Inputs that are not rejected *)

(** C3 as stated (an InvalidRange failure when USL <= LSL) fails: with USL 5
    and LSL 10 the two-sided generator returns its two tables, and so does
    the one-sided generator with limit 5 and target 10. *)
Lemma invalid_range_counterexample :
  5 <= 10 /\
  (exists out,
     taguchi_loss_function (fun _ => Fin 0) [1] 5 10 1 1 2 = Ok out /\
     List.length (Loss_Curve out) = 500%nat /\
     List.length (Results out) = 4%nat) /\
  (exists out,
     one_sided_loss_function (fun _ => Fin 0) [1] 10 5 1 1 5 5 = Ok out /\
     List.length (Loss_Curve out) = 500%nat /\
     List.length (Results out) = 4%nat).
Proof.
  split; [lra|]. split; eexists; (split; [reflexivity|]);
    split; vm_compute; reflexivity.
Qed.

(** C3, amended.  Neither generator checks the order of its limits.  With
    USL <= LSL the two-sided generator returns 500 rows, each carrying
    tolerance*(target-LSL)^2 if x <= LSL and tolerance*(USL-target)^2
    otherwise; with specification limit <= target and a non-empty sample the
    one-sided generator returns 500 rows, each carrying the cap
    tolerance*(spec_limit-target)^2 if x >= spec_limit and 0 otherwise. *)
Theorem no_range_check (std_of : list Q -> num) (data : list Q)
    (USL LSL target spec_limit k : Q) (round_value : Z)
    (spec_buffer below_target past_spec : Q) :
  USL <= LSL -> spec_limit <= target -> data <> [] ->
  (exists out,
     taguchi_loss_function std_of data USL LSL k round_value spec_buffer = Ok out /\
     List.length (Loss_Curve out) = 500%nat /\
     Forall (fun xy : Q * Q =>
               let (x, y) := xy in
               let tolerance := USL - LSL in
               let target := round (LSL + tolerance / 2) round_value in
               (x <= LSL -> y = tolerance * (target - LSL) ^ 2) /\
               (LSL < x -> y = tolerance * (USL - target) ^ 2))
            (Loss_Curve out)) /\
  (exists out,
     one_sided_loss_function std_of data target spec_limit k round_value
       below_target past_spec = Ok out /\
     List.length (Loss_Curve out) = 500%nat /\
     Forall (fun xy : Q * Q =>
               let (x, y) := xy in
               let tolerance := spec_limit - target in
               (spec_limit <= x -> y = tolerance * (spec_limit - target) ^ 2) /\
               (x < spec_limit -> y = 0))
            (Loss_Curve out)).
Proof.
  intros H2 H1 Hne. split.
  - eexists. split; [reflexivity|]. cbn [Loss_Curve]. split.
    + rewrite frame_length. apply linspace_length.
    + apply frame_rows_prop. intro x. cbv zeta. split.
      * apply taguchi_loss_low.
      * intro H. apply taguchi_loss_high; lra.
  - destruct (one_sided_returns std_of data target spec_limit k round_value
                below_target past_spec Hne) as [out [Hout Hcurve]].
    exists out. split; [exact Hout|]. rewrite Hcurve. cbv zeta. split.
    + rewrite frame_length. apply linspace_length.
    + apply frame_rows_prop. intro x. split.
      * apply one_sided_loss_high.
      * intro H. apply one_sided_loss_low; lra.
Qed.

Lemma no_range_check_witness :
  (exists out,
     taguchi_loss_function (fun _ => Fin 0) [1] 5 10 1 1 2 = Ok out /\
     List.length (Loss_Curve out) = 500%nat /\
     Forall (fun xy : Q * Q =>
               let (x, y) := xy in
               let tolerance := 5 - 10 in
               let target := round (10 + tolerance / 2) 1 in
               (x <= 10 -> y = tolerance * (target - 10) ^ 2) /\
               (10 < x -> y = tolerance * (5 - target) ^ 2))
            (Loss_Curve out)) /\
  (exists out,
     one_sided_loss_function (fun _ => Fin 0) [1] 10 5 1 1 5 5 = Ok out /\
     List.length (Loss_Curve out) = 500%nat /\
     Forall (fun xy : Q * Q =>
               let (x, y) := xy in
               let tolerance := 5 - 10 in
               (5 <= x -> y = tolerance * (5 - 10) ^ 2) /\
               (x < 5 -> y = 0))
            (Loss_Curve out)).
Proof.
  apply (no_range_check (fun _ => Fin 0) [1] 5 10 10 5 1 1 2 5 5).
  - discriminate.
  - discriminate.
  - discriminate.
Defined.

(** C9 as stated (an EmptySample failure) fails for the two-sided generator:
    on the empty sample it returns both tables, the mean being [nan]. *)
Lemma empty_sample_counterexample :
  exists out,
    taguchi_loss_function (fun _ => NaN) [] 20 10 1 1 2 = Ok out /\
    List.length (Loss_Curve out) = 500%nat /\
    mean_of out = Some NaN.
Proof.
  eexists. split; [reflexivity|]. split; [vm_compute; reflexivity | reflexivity].
Qed.

(** C9, amended.  The two-sided generator has no empty-sample check: on the
    empty sample it returns normally, with the full 500-row loss curve (the
    rows of the loop body over the linspace) and a statistics table whose
    mean, average loss and slope are [nan]. *)
Theorem taguchi_empty_sample (std_of : list Q -> num)
    (USL LSL k : Q) (round_value : Z) (spec_buffer : Q) :
  exists out,
    taguchi_loss_function std_of [] USL LSL k round_value spec_buffer = Ok out /\
    List.length (Loss_Curve out) = 500%nat /\
    (forall x y, In (x, y) (Loss_Curve out) ->
       y = taguchi_loss USL LSL (USL - LSL)
             (round (LSL + (USL - LSL) / 2) round_value) x) /\
    mean_of out = Some NaN /\
    loss_of out = Some NaN /\
    slope_of out = Some NaN.
Proof.
  destruct (taguchi_rows std_of [] USL LSL k round_value spec_buffer)
    as [out [Hout [Hlen Hrows]]].
  exists out. split; [exact Hout|]. split; [exact Hlen|]. split; [exact Hrows|].
  unfold taguchi_loss_function in Hout. injection Hout as <-.
  unfold mean_of, loss_of, slope_of. cbn [Results].
  rewrite stat_mean, stat_loss, stat_slope. cbn [mean round_num].
  repeat split.
  destruct (round_num (std_of []) round_value); reflexivity.
Qed.

(** ** Rounding *)

Lemma round_half_even_bounds (x : Q) :
  x - (1 # 2) <= inject_Z (round_half_even x) /\
  inject_Z (round_half_even x) <= x + (1 # 2).
Proof.
  unfold round_half_even.
  pose proof (Qfloor_le x) as Hlo. pose proof (Qlt_floor x) as Hhi.
  rewrite inject_Z_plus in Hhi. change (inject_Z 1) with 1 in Hhi.
  destruct (Qcompare (x - inject_Z (Qfloor x)) (1 # 2)) eqn:E.
  - apply Qeq_alt in E. destruct (Z.even (Qfloor x)).
    + split; lra.
    + rewrite inject_Z_plus. change (inject_Z 1) with 1. split; lra.
  - apply Qlt_alt in E. split; lra.
  - apply Qgt_alt in E. rewrite inject_Z_plus. change (inject_Z 1) with 1.
    split; lra.
Qed.

Lemma round_half_even_nonneg (x : Q) : 0 <= x -> (0 <= round_half_even x)%Z.
Proof.
  intro Hx. unfold round_half_even.
  assert (Hf : (0 <= Qfloor x)%Z).
  { change 0%Z with (Qfloor 0). now apply Qfloor_resp_le. }
  destruct (Qcompare _ _); [destruct (Z.even _)| |];
    auto using Z.le_le_succ_r with zarith.
Qed.

Lemma ten_power_pos (n : Z) : 0 < (10 # 1) ^ n.
Proof. apply Qpower_0_lt. reflexivity. Qed.

(** [round(x, n)] is within half a unit of the n-th decimal place of x. *)
Lemma round_error (x : Q) (n : Z) :
  x - (1 # 2) / (10 # 1) ^ n <= round x n /\
  round x n <= x + (1 # 2) / (10 # 1) ^ n.
Proof.
  unfold round. pose proof (ten_power_pos n) as Hp.
  set (p := (10 # 1) ^ n) in *.
  destruct (round_half_even_bounds (x * p)) as [Hlo Hhi].
  assert (Hne : ~ p == 0) by lra.
  split.
  - apply Qle_shift_div_l; [exact Hp|].
    setoid_replace ((x - (1 # 2) / p) * p) with (x * p - (1 # 2)) by (field; exact Hne).
    exact Hlo.
  - apply Qle_shift_div_r; [exact Hp|].
    setoid_replace ((x + (1 # 2) / p) * p) with (x * p + (1 # 2)) by (field; exact Hne).
    exact Hhi.
Qed.

Lemma round_nonneg (x : Q) (n : Z) : 0 <= x -> 0 <= round x n.
Proof.
  intro Hx. unfold round. pose proof (ten_power_pos n) as Hp.
  apply Qle_shift_div_l; [exact Hp|]. rewrite Qmult_0_l.
  change 0 with (inject_Z 0). rewrite <- Zle_Qle.
  apply round_half_even_nonneg. apply Qmult_le_0_compat; lra.
Qed.

(** ** The sampling grid *)

Lemma linspace_nth_error (start stop : Q) (n i : nat) :
  (i < n)%nat -> (2 <= n)%nat ->
  exists x,
    nth_error (linspace start stop n) i = Some x /\
    x == start + inject_Z (Z.of_nat i) * ((stop - start) / inject_Z (Z.of_nat (n - 1))).
Proof.
  intros Hi Hn. unfold linspace.
  rewrite nth_error_map, nth_error_seq.
  assert (Hlt : (i <? n)%nat = true) by now apply Nat.ltb_lt.
  rewrite Hlt. cbn [option_map Nat.add].
  eexists. split; [reflexivity|].
  assert (Hd : 0 < inject_Z (Z.of_nat (n - 1))).
  { change 0 with (inject_Z 0). rewrite <- Zlt_Qlt.
    apply (Nat2Z.inj_lt 0). apply Nat.lt_add_lt_sub_r. exact Hn. }
  destruct (Nat.eqb i (n - 1)) eqn:E.
  - assert (Hn1 : (1 <? n)%nat = true) by now apply Nat.ltb_lt.
    rewrite Hn1. cbn [andb]. apply Nat.eqb_eq in E. subst i.
    field. lra.
  - cbn [andb]. ring.
Qed.

(** ** Further properties of the two functions *)

(** X3. When the tolerance is at least one unit of the last kept decimal
    place, the target lies between the two limits. *)
Theorem taguchi_target_in_range (USL LSL : Q) (round_value : Z) :
  1 / (10 # 1) ^ round_value <= USL - LSL ->
  let tolerance := USL - LSL in
  let target := round (LSL + tolerance / 2) round_value in
  LSL <= target /\ target <= USL.
Proof.
  intros Hunit tolerance target.
  destruct (round_error (LSL + tolerance / 2) round_value) as [Hlo Hhi].
  fold target in Hlo, Hhi. clearbody target.
  assert (Hmid : LSL + tolerance / 2 == (LSL + USL) * (1 # 2))
    by (subst tolerance; field).
  rewrite Hmid in Hlo, Hhi.
  pose proof (ten_power_pos round_value) as Hp.
  set (p := (10 # 1) ^ round_value) in *.
  assert (Hhalf : (1 # 2) / p == (1 / p) * (1 # 2)) by (field; lra).
  rewrite Hhalf in Hlo, Hhi.
  set (u := 1 / p) in *. clearbody u. split; lra.
Qed.

Lemma taguchi_target_in_range_witness :
  10 <= round (10 + (20 - 10) / 2) 1 /\ round (10 + (20 - 10) / 2) 1 <= 20.
Proof.
  apply (taguchi_target_in_range 20 10 1). vm_compute. discriminate.
Defined.

(** Squares compare like absolute values. *)
Lemma sqr_le_pos (a b : Q) : - b <= a -> a <= b -> a ^ 2 <= b ^ 2.
Proof.
  intros H1 H2. simpl.
  assert (H : 0 <= (b - a) * (b + a)) by (apply Qmult_le_0_compat; lra).
  lra.
Qed.

Lemma sqr_le_neg (a b : Q) : b <= a -> a <= - b -> a ^ 2 <= b ^ 2.
Proof.
  intros H1 H2. simpl.
  assert (H : 0 <= (a - b) * (- b - a)) by (apply Qmult_le_0_compat; lra).
  lra.
Qed.

Lemma scaled_sqr_le (t a b : Q) :
  0 <= t -> (- b <= a /\ a <= b) \/ (b <= a /\ a <= - b) ->
  t * a ^ 2 <= t * b ^ 2.
Proof.
  intros Ht H.
  assert (Hsq : a ^ 2 <= b ^ 2)
    by (destruct H as [[H1 H2]|[H1 H2]]; [now apply sqr_le_pos | now apply sqr_le_neg]).
  rewrite !(Qmult_comm t). now apply Qmult_le_compat_r.
Qed.

(** Region of a sample with respect to two bounds lo < hi. *)
Lemma three_regions (lo hi x : Q) :
  lo < hi -> x <= lo \/ (lo < x /\ x < hi) \/ hi <= x.
Proof.
  intro H. destruct (Qlt_le_dec lo x); [|now left].
  destruct (Qlt_le_dec x hi); [right; left; now split | right; now right].
Qed.

(** X4. For LSL <= USL every row of the two-sided table is the parabola
    evaluated at x clamped to [LSL, USL]: y == tolerance*(c - target)^2 with
    c = max(LSL, min(x, USL)).  The curve has no jump at the limits. *)
Theorem taguchi_curve_clamped (std_of : list Q -> num) (data : list Q)
    (USL LSL k : Q) (round_value : Z) (spec_buffer : Q) :
  LSL <= USL ->
  let tolerance := USL - LSL in
  let target := round (LSL + tolerance / 2) round_value in
  exists out,
    taguchi_loss_function std_of data USL LSL k round_value spec_buffer = Ok out /\
    forall x y, In (x, y) (Loss_Curve out) ->
      y == tolerance * (Qmax LSL (Qmin x USL) - target) ^ 2.
Proof.
  intros Hrange tolerance target.
  destruct (taguchi_rows std_of data USL LSL k round_value spec_buffer)
    as [out [Hout [_ Hrows]]].
  fold tolerance in Hrows. fold target in Hrows. clearbody target tolerance.
  exists out. split; [exact Hout|]. intros x y Hin. rewrite (Hrows x y Hin).
  simpl Qpower.
  destruct (Qlt_le_dec LSL x) as [L|L].
  - destruct (Qlt_le_dec x USL) as [U|U].
    + rewrite taguchi_loss_mid by assumption. simpl Qpower.
      rewrite (Q.min_l x USL) by lra. rewrite (Q.max_r LSL x) by lra. reflexivity.
    + rewrite taguchi_loss_high by assumption. simpl Qpower.
      rewrite (Q.min_r x USL) by lra. rewrite (Q.max_r LSL USL) by lra. reflexivity.
  - rewrite taguchi_loss_low by assumption. simpl Qpower.
    rewrite (Q.min_l x USL) by lra. rewrite (Q.max_l LSL x) by lra. ring.
Qed.

Lemma taguchi_curve_clamped_witness :
  exists out,
    taguchi_loss_function (fun _ => Fin 2) [13; 17] 20 10 1 1 2 = Ok out /\
    forall x y, In (x, y) (Loss_Curve out) ->
      y == (20 - 10) * (Qmax 10 (Qmin x 20) - round (10 + (20 - 10) / 2) 1) ^ 2.
Proof.
  apply (taguchi_curve_clamped (fun _ => Fin 2) [13; 17] 20 10 1 1 2).
  discriminate.
Defined.

(** X5. For LSL < USL the two-sided curve is a valley around the target:
    of two rows, both at or left of the target, the left one carries the
    larger (or equal) loss; both at or right of the target, the right one
    does. *)
Theorem taguchi_curve_valley (std_of : list Q -> num) (data : list Q)
    (USL LSL k : Q) (round_value : Z) (spec_buffer : Q) :
  LSL < USL ->
  let target := round (LSL + (USL - LSL) / 2) round_value in
  exists out,
    taguchi_loss_function std_of data USL LSL k round_value spec_buffer = Ok out /\
    forall x1 y1 x2 y2,
      In (x1, y1) (Loss_Curve out) -> In (x2, y2) (Loss_Curve out) ->
      x1 <= x2 ->
      (x2 <= target -> y2 <= y1) /\ (target <= x1 -> y1 <= y2).
Proof.
  intros Hrange target.
  destruct (taguchi_rows std_of data USL LSL k round_value spec_buffer)
    as [out [Hout [_ Hrows]]].
  fold target in Hrows. clearbody target.
  assert (Htol : 0 <= USL - LSL) by lra.
  exists out. split; [exact Hout|].
  intros x1 y1 x2 y2 Hin1 Hin2 Hle.
  rewrite (Hrows x1 y1 Hin1), (Hrows x2 y2 Hin2).
  destruct (three_regions LSL USL x1 Hrange) as [A|[[A A']|A]];
    destruct (three_regions LSL USL x2 Hrange) as [B|[[B B']|B]];
    try (exfalso; lra);
    repeat first [ rewrite (taguchi_loss_low _ _ _ _ x1) by lra
                 | rewrite (taguchi_loss_low _ _ _ _ x2) by lra
                 | rewrite (taguchi_loss_high _ _ _ _ x1) by lra
                 | rewrite (taguchi_loss_high _ _ _ _ x2) by lra
                 | rewrite (taguchi_loss_mid _ _ _ _ x1) by lra
                 | rewrite (taguchi_loss_mid _ _ _ _ x2) by lra ];
    split; intro Ht;
    first [ apply Qle_refl
          | apply scaled_sqr_le; [exact Htol|]; first [left; split; lra | right; split; lra] ].
Qed.

Lemma taguchi_curve_valley_witness :
  exists out,
    taguchi_loss_function (fun _ => Fin 2) [13; 17] 20 10 1 1 2 = Ok out /\
    forall x1 y1 x2 y2,
      In (x1, y1) (Loss_Curve out) -> In (x2, y2) (Loss_Curve out) ->
      x1 <= x2 ->
      (x2 <= round (10 + (20 - 10) / 2) 1 -> y2 <= y1) /\
      (round (10 + (20 - 10) / 2) 1 <= x1 -> y1 <= y2).
Proof.
  apply (taguchi_curve_valley (fun _ => Fin 2) [13; 17] 20 10 1 1 2).
  reflexivity.
Defined.

(** Every row of a returned one-sided table is the loop body at its x. *)
Lemma one_sided_rows (std_of : list Q -> num) (data : list Q)
    (target spec_limit k : Q) (round_value : Z) (below_target past_spec : Q) :
  data <> [] ->
  exists out,
    one_sided_loss_function std_of data target spec_limit k round_value
      below_target past_spec = Ok out /\
    forall x y, In (x, y) (Loss_Curve out) ->
      y = one_sided_loss target spec_limit (spec_limit - target) x.
Proof.
  intro Hne.
  destruct (one_sided_returns std_of data target spec_limit k round_value
              below_target past_spec Hne) as [out [Hout Hcurve]].
  exists out. split; [exact Hout|]. intros x y Hin. rewrite Hcurve in Hin.
  pose proof (frame_rows (one_sided_loss target spec_limit (spec_limit - target))
    (linspace (target - below_target) (spec_limit + past_spec) 500)) as Hrows.
  rewrite Forall_forall in Hrows. exact (Hrows (x, y) Hin).
Qed.

Lemma py_max_sqr (a : Q) : 0 < a -> py_max 0 (a ^ 2) = a ^ 2.
Proof.
  intro Ha. unfold py_max.
  assert (H : Qltb 0 (a ^ 2) = true).
  { apply Qltb_true. simpl. now apply Qmult_lt_0_compat. }
  now rewrite H.
Qed.

(** X6. In the one-sided loop the guard [max(0, .)] never changes a value:
    every row strictly between target and specification limit carries
    tolerance*(x-target)^2. *)
Theorem one_sided_max_redundant (std_of : list Q -> num) (data : list Q)
    (target spec_limit k : Q) (round_value : Z) (below_target past_spec : Q) :
  data <> [] ->
  exists out,
    one_sided_loss_function std_of data target spec_limit k round_value
      below_target past_spec = Ok out /\
    forall x y, In (x, y) (Loss_Curve out) ->
      target < x -> x < spec_limit ->
      y = (spec_limit - target) * (x - target) ^ 2.
Proof.
  intro Hne.
  destruct (one_sided_rows std_of data target spec_limit k round_value
              below_target past_spec Hne) as [out [Hout Hrows]].
  exists out. split; [exact Hout|]. intros x y Hin H1 H2.
  rewrite (Hrows x y Hin), one_sided_loss_mid by assumption.
  rewrite py_max_sqr by lra. reflexivity.
Qed.

Lemma one_sided_max_redundant_witness :
  exists out,
    one_sided_loss_function (fun _ => Fin 1) [5] 0 10 1 1 5 5 = Ok out /\
    forall x y, In (x, y) (Loss_Curve out) ->
      0 < x -> x < 10 -> y = (10 - 0) * (x - 0) ^ 2.
Proof.
  apply (one_sided_max_redundant (fun _ => Fin 1) [5] 0 10 1 1 5 5).
  discriminate.
Defined.

(** X7. For specification limit > target the one-sided curve never
    decreases from left to right, and no row exceeds the cap
    tolerance*(spec_limit-target)^2. *)
Theorem one_sided_curve_monotone (std_of : list Q -> num) (data : list Q)
    (target spec_limit k : Q) (round_value : Z) (below_target past_spec : Q) :
  target < spec_limit -> data <> [] ->
  let tolerance := spec_limit - target in
  exists out,
    one_sided_loss_function std_of data target spec_limit k round_value
      below_target past_spec = Ok out /\
    (forall x1 y1 x2 y2,
       In (x1, y1) (Loss_Curve out) -> In (x2, y2) (Loss_Curve out) ->
       x1 <= x2 -> y1 <= y2) /\
    (forall x y, In (x, y) (Loss_Curve out) ->
       y <= tolerance * (spec_limit - target) ^ 2).
Proof.
  intros Hrange Hne tolerance.
  destruct (one_sided_rows std_of data target spec_limit k round_value
              below_target past_spec Hne) as [out [Hout Hrows]].
  fold tolerance in Hrows.
  assert (Htol : 0 <= tolerance) by (subst tolerance; lra).
  clearbody tolerance.
  assert (Hcap : forall x, one_sided_loss target spec_limit tolerance x
                           <= tolerance * (spec_limit - target) ^ 2).
  { intro x. destruct (three_regions target spec_limit x Hrange) as [A|[[A A']|A]].
    - rewrite one_sided_loss_low by lra.
      apply Qmult_le_0_compat; [exact Htol | apply Qsqr_nonneg].
    - rewrite one_sided_loss_mid, py_max_sqr by lra.
      apply scaled_sqr_le; [exact Htol | left; split; lra].
    - rewrite one_sided_loss_high by lra. apply Qle_refl. }
  exists out. split; [exact Hout|]. split.
  - intros x1 y1 x2 y2 Hin1 Hin2 Hle.
    rewrite (Hrows x1 y1 Hin1), (Hrows x2 y2 Hin2).
    destruct (three_regions target spec_limit x1 Hrange) as [A|[[A A']|A]].
    + rewrite (one_sided_loss_low _ _ _ x1) by lra.
      apply one_sided_loss_nonneg. exact Htol.
    + destruct (Qlt_le_dec x2 spec_limit) as [B|B].
      * rewrite !one_sided_loss_mid by lra. rewrite !py_max_sqr by lra.
        apply scaled_sqr_le; [exact Htol | left; split; lra].
      * rewrite (one_sided_loss_high _ _ _ x2) by lra. apply Hcap.
    + rewrite !one_sided_loss_high by lra. apply Qle_refl.
  - intros x y Hin. rewrite (Hrows x y Hin). apply Hcap.
Qed.

Lemma one_sided_curve_monotone_witness :
  exists out,
    one_sided_loss_function (fun _ => Fin 1) [5] 0 10 1 1 5 5 = Ok out /\
    (forall x1 y1 x2 y2,
       In (x1, y1) (Loss_Curve out) -> In (x2, y2) (Loss_Curve out) ->
       x1 <= x2 -> y1 <= y2) /\
    (forall x y, In (x, y) (Loss_Curve out) -> y <= (10 - 0) * (10 - 0) ^ 2).
Proof.
  apply (one_sided_curve_monotone (fun _ => Fin 1) [5] 0 10 1 1 5 5).
  - reflexivity.
  - discriminate.
Defined.

(** ** Rows by position *)

Lemma nth_error_frame (f : Q -> Q) (xs : list Q) (i : nat) :
  nth_error (combine xs (map f xs)) i =
  option_map (fun x => (x, f x)) (nth_error xs i).
Proof.
  revert i. induction xs as [|x xs IH]; intros [|i]; simpl; auto.
Qed.

Lemma linspace_last (start stop : Q) (n : nat) :
  (2 <= n)%nat -> nth_error (linspace start stop n) (n - 1) = Some stop.
Proof.
  intro Hn. unfold linspace. rewrite nth_error_map, nth_error_seq.
  assert (H1 : (n - 1 <? n)%nat = true) by (apply Nat.ltb_lt; lia).
  assert (H2 : (1 <? n)%nat = true) by (apply Nat.ltb_lt; lia).
  rewrite H1. cbn [option_map Nat.add]. now rewrite Nat.eqb_refl, H2.
Qed.

Lemma linspace_increasing (start stop : Q) (n i j : nat) (xi xj : Q) :
  start < stop -> (i < j)%nat ->
  nth_error (linspace start stop n) i = Some xi ->
  nth_error (linspace start stop n) j = Some xj ->
  xi < xj.
Proof.
  intros Hlt Hij Hi Hj.
  assert (Hjn : (j < n)%nat).
  { rewrite <- (linspace_length start stop n). apply nth_error_Some. congruence. }
  destruct (linspace_nth_error start stop n i) as [x [Hx Ex]]; [lia | lia |].
  destruct (linspace_nth_error start stop n j) as [x' [Hx' Ex']]; [lia | lia |].
  assert (x = xi) by congruence. assert (x' = xj) by congruence. subst x x'.
  rewrite Ex, Ex'.
  set (d := inject_Z (Z.of_nat (n - 1))).
  assert (Hd : 0 < d).
  { subst d. change 0 with (inject_Z 0). rewrite <- Zlt_Qlt. lia. }
  assert (Hstep : 0 < (stop - start) / d).
  { apply Qlt_shift_div_l; [exact Hd | lra]. }
  assert (Hidx : inject_Z (Z.of_nat i) < inject_Z (Z.of_nat j)).
  { rewrite <- Zlt_Qlt. lia. }
  set (step := (stop - start) / d) in *. clearbody step.
  set (a := inject_Z (Z.of_nat i)) in *. set (b := inject_Z (Z.of_nat j)) in *.
  clearbody a b.
  assert (H : 0 < (b - a) * step) by (apply Qmult_lt_0_compat; lra).
  lra.
Qed.

(** The two-sided table is the linspace paired with the loop body. *)
Lemma taguchi_table (std_of : list Q -> num) (data : list Q)
    (USL LSL k : Q) (round_value : Z) (spec_buffer : Q) :
  exists out,
    taguchi_loss_function std_of data USL LSL k round_value spec_buffer = Ok out /\
    Loss_Curve out =
      (let x_values := linspace (LSL - spec_buffer) (USL + spec_buffer) 500 in
       combine x_values
         (map (taguchi_loss USL LSL (USL - LSL)
                 (round (LSL + (USL - LSL) / 2) round_value)) x_values)).
Proof. eexists. split; reflexivity. Qed.

Lemma frame_increasing (f : Q -> Q) (start stop : Q) (n i j : nat) (p q : Q * Q) :
  start < stop -> (i < j)%nat ->
  nth_error (combine (linspace start stop n) (map f (linspace start stop n))) i = Some p ->
  nth_error (combine (linspace start stop n) (map f (linspace start stop n))) j = Some q ->
  fst p < fst q.
Proof.
  intros Hlt Hij Hp Hq. rewrite nth_error_frame in Hp, Hq.
  destruct (nth_error (linspace start stop n) i) as [xi|] eqn:Ei; [|discriminate].
  destruct (nth_error (linspace start stop n) j) as [xj|] eqn:Ej; [|discriminate].
  cbn [option_map] in Hp, Hq. injection Hp as <-. injection Hq as <-. cbn [fst].
  exact (linspace_increasing start stop n i j xi xj Hlt Hij Ei Ej).
Qed.

(** X8. For LSL < USL and a non-negative buffer the two-sided table is
    sorted by strictly increasing x; its first row sits at LSL - buffer on
    the lower flat part and its last row at USL + buffer on the upper flat
    part. *)
Theorem taguchi_table_ends (std_of : list Q -> num) (data : list Q)
    (USL LSL k : Q) (round_value : Z) (spec_buffer : Q) :
  LSL < USL -> 0 <= spec_buffer ->
  let tolerance := USL - LSL in
  let target := round (LSL + tolerance / 2) round_value in
  exists out,
    taguchi_loss_function std_of data USL LSL k round_value spec_buffer = Ok out /\
    (forall i j p q, (i < j)%nat ->
       nth_error (Loss_Curve out) i = Some p ->
       nth_error (Loss_Curve out) j = Some q -> fst p < fst q) /\
    (exists x0,
       nth_error (Loss_Curve out) 0 = Some (x0, tolerance * (target - LSL) ^ 2) /\
       x0 == LSL - spec_buffer) /\
    nth_error (Loss_Curve out) 499 =
      Some (USL + spec_buffer, tolerance * (USL - target) ^ 2).
Proof.
  intros Hrange Hbuf tolerance target.
  destruct (taguchi_table std_of data USL LSL k round_value spec_buffer)
    as [out [Hout Hcurve]].
  fold tolerance in Hcurve. fold target in Hcurve. cbv zeta in Hcurve.
  exists out. split; [exact Hout|]. rewrite Hcurve. split; [|split].
  - intros i j p q. apply frame_increasing. lra.
  - destruct (linspace_nth_error (LSL - spec_buffer) (USL + spec_buffer) 500 0)
      as [x0 [Hx0 Ex0]]; [lia | lia |].
    assert (E : x0 == LSL - spec_buffer) by (rewrite Ex0; cbn [Z.of_nat]; ring).
    exists x0. split; [|exact E].
    rewrite nth_error_frame, Hx0. cbn [option_map].
    rewrite taguchi_loss_low by lra. reflexivity.
  - rewrite nth_error_frame.
    assert (Hl : nth_error (linspace (LSL - spec_buffer) (USL + spec_buffer) 500) 499
                 = Some (USL + spec_buffer))
      by (apply (linspace_last (LSL - spec_buffer) (USL + spec_buffer) 500); lia).
    rewrite Hl.
    cbn [option_map]. rewrite taguchi_loss_high by lra. reflexivity.
Qed.

Lemma taguchi_table_ends_witness :
  exists out,
    taguchi_loss_function (fun _ => Fin 2) [13; 17] 20 10 1 1 2 = Ok out /\
    (forall i j p q, (i < j)%nat ->
       nth_error (Loss_Curve out) i = Some p ->
       nth_error (Loss_Curve out) j = Some q -> fst p < fst q) /\
    (exists x0,
       nth_error (Loss_Curve out) 0 =
         Some (x0, (20 - 10) * (round (10 + (20 - 10) / 2) 1 - 10) ^ 2) /\
       x0 == 10 - 2) /\
    nth_error (Loss_Curve out) 499 =
      Some (20 + 2, (20 - 10) * (20 - round (10 + (20 - 10) / 2) 1) ^ 2).
Proof.
  apply (taguchi_table_ends (fun _ => Fin 2) [13; 17] 20 10 1 1 2).
  - reflexivity.
  - discriminate.
Defined.

(** X9. For specification limit > target and non-negative margins the
    one-sided table is sorted by strictly increasing x; its first row sits at
    target - below_target with loss 0 and its last row at
    spec_limit + past_spec with the cap. *)
Theorem one_sided_table_ends (std_of : list Q -> num) (data : list Q)
    (target spec_limit k : Q) (round_value : Z) (below_target past_spec : Q) :
  target < spec_limit -> 0 <= below_target -> 0 <= past_spec -> data <> [] ->
  let tolerance := spec_limit - target in
  exists out,
    one_sided_loss_function std_of data target spec_limit k round_value
      below_target past_spec = Ok out /\
    (forall i j p q, (i < j)%nat ->
       nth_error (Loss_Curve out) i = Some p ->
       nth_error (Loss_Curve out) j = Some q -> fst p < fst q) /\
    (exists x0,
       nth_error (Loss_Curve out) 0 = Some (x0, 0) /\
       x0 == target - below_target) /\
    nth_error (Loss_Curve out) 499 =
      Some (spec_limit + past_spec, tolerance * (spec_limit - target) ^ 2).
Proof.
  intros Hrange Hbelow Hpast Hne tolerance.
  destruct (one_sided_returns std_of data target spec_limit k round_value
              below_target past_spec Hne) as [out [Hout Hcurve]].
  fold tolerance in Hcurve. cbv zeta in Hcurve.
  exists out. split; [exact Hout|]. rewrite Hcurve. split; [|split].
  - intros i j p q. apply frame_increasing. lra.
  - destruct (linspace_nth_error (target - below_target) (spec_limit + past_spec) 500 0)
      as [x0 [Hx0 Ex0]]; [lia | lia |].
    assert (E : x0 == target - below_target) by (rewrite Ex0; cbn [Z.of_nat]; ring).
    exists x0. split; [|exact E].
    rewrite nth_error_frame, Hx0. cbn [option_map].
    rewrite one_sided_loss_low by lra. reflexivity.
  - rewrite nth_error_frame.
    assert (Hl : nth_error (linspace (target - below_target) (spec_limit + past_spec) 500) 499
                 = Some (spec_limit + past_spec))
      by (apply (linspace_last (target - below_target) (spec_limit + past_spec) 500); lia).
    rewrite Hl.
    cbn [option_map]. rewrite one_sided_loss_high by lra. reflexivity.
Qed.

Lemma one_sided_table_ends_witness :
  exists out,
    one_sided_loss_function (fun _ => Fin 1) [5] 0 10 1 1 5 5 = Ok out /\
    (forall i j p q, (i < j)%nat ->
       nth_error (Loss_Curve out) i = Some p ->
       nth_error (Loss_Curve out) j = Some q -> fst p < fst q) /\
    (exists x0, nth_error (Loss_Curve out) 0 = Some (x0, 0) /\ x0 == 0 - 5) /\
    nth_error (Loss_Curve out) 499 = Some (10 + 5, (10 - 0) * (10 - 0) ^ 2).
Proof.
  apply (one_sided_table_ends (fun _ => Fin 1) [5] 0 10 1 1 5 5).
  - reflexivity.
  - discriminate.
  - discriminate.
  - discriminate.
Defined.

(** ** The statistics, in closed form *)

(** What the one-sided function returns when the mean is finite: the
    if/elif chains written as conditional expressions. *)
Lemma one_sided_closed_form (std_of : list Q -> num) (data : list Q)
    (target spec_limit k : Q) (round_value : Z) (below_target past_spec q : Q) :
  mean data = Fin q ->
  let m := round q round_value in
  let s := round_num (std_of data) round_value in
  let x_values := linspace (target - below_target) (spec_limit + past_spec) 500 in
  one_sided_loss_function std_of data target spec_limit k round_value
    below_target past_spec =
  Ok {| Results :=
          [("Mean", Fin m); ("s", s);
           ("Ave. Loss",
            if Qltb m target then Fin 0
            else round_num (add (mul (Fin k) (sqr s)) (Fin ((m - target) ^ 2)))
                   round_value);
           ("Slope at Ave.",
            Fin (if Qleb m target then 0
                 else if Qleb m spec_limit
                   then (spec_limit - target) * (m - target) ^ 2
                 else 0))]%string;
        Loss_Curve :=
          combine x_values
            (map (one_sided_loss target spec_limit (spec_limit - target)) x_values) |}.
Proof.
  intros Hq m s x_values. unfold one_sided_loss_function. rewrite Hq.
  cbn [round_num]. fold m. fold s. fold x_values.
  rewrite !leb_Fin, !ltb_Fin. unfold Qltb, Qleb.
  destruct (Qle_bool m target); [reflexivity|].
  destruct (Qle_bool m spec_limit); reflexivity.
Qed.

(** X1. The one-sided function returns exactly when the rounded mean is a
    number.  When it is [nan], as for the empty sample, none of the three
    slope branches runs and reading [slope] raises UnboundLocalError. *)
Theorem one_sided_returns_iff_mean_finite (std_of : list Q -> num) (data : list Q)
    (target spec_limit k : Q) (round_value : Z) (below_target past_spec : Q) :
  (one_sided_loss_function std_of data target spec_limit k round_value
     below_target past_spec = Raise (UnboundLocalError "slope") <->
   round_num (mean data) round_value = NaN) /\
  ((exists out,
      one_sided_loss_function std_of data target spec_limit k round_value
        below_target past_spec = Ok out) <->
   exists m, round_num (mean data) round_value = Fin m) /\
  one_sided_loss_function std_of [] target spec_limit k round_value
    below_target past_spec = Raise (UnboundLocalError "slope").
Proof.
  split; [|split; [|reflexivity]].
  - destruct (mean data) as [q|] eqn:E.
    + pose proof (one_sided_closed_form std_of data target spec_limit k
                    round_value below_target past_spec q E) as Hcf.
      cbv zeta in Hcf. rewrite Hcf. cbn [round_num].
      split; discriminate.
    + unfold one_sided_loss_function. rewrite E. split; reflexivity.
  - destruct (mean data) as [q|] eqn:E.
    + pose proof (one_sided_closed_form std_of data target spec_limit k
                    round_value below_target past_spec q E) as Hcf.
      cbv zeta in Hcf. rewrite Hcf. cbn [round_num]. split; intros _.
      * now exists (round q round_value).
      * eexists. reflexivity.
    + unfold one_sided_loss_function. rewrite E. cbn.
      split; intros [x Hx]; discriminate.
Qed.

(** X10. Two-sided average loss for a non-empty sample with rounded mean m:
    with a finite standard deviation, rounded to s, the row is
    round(k*s^2 + (m-target)^2, precision), non-negative when k >= 0; with a
    [nan] standard deviation the row is [nan]. *)
Theorem taguchi_average_loss (std_of : list Q -> num) (data : list Q)
    (USL LSL k : Q) (round_value : Z) (spec_buffer : Q) :
  data <> [] ->
  let target := round (LSL + (USL - LSL) / 2) round_value in
  exists m out,
    round_num (mean data) round_value = Fin m /\
    taguchi_loss_function std_of data USL LSL k round_value spec_buffer = Ok out /\
    (forall s0, std_of data = Fin s0 ->
       let s := round s0 round_value in
       loss_of out = Some (Fin (round (k * s ^ 2 + (m - target) ^ 2) round_value)) /\
       (0 <= k -> 0 <= round (k * s ^ 2 + (m - target) ^ 2) round_value)) /\
    (std_of data = NaN -> loss_of out = Some NaN).
Proof.
  intros Hne target.
  destruct (mean_nonempty data Hne) as [q Hq].
  unfold taguchi_loss_function. rewrite Hq. cbn [round_num]. fold target.
  set (m := round q round_value).
  exists m. eexists. split; [reflexivity|]. split; [reflexivity|].
  unfold loss_of. cbn [Results]. split.
  - intros s0 Hs. cbv zeta. rewrite stat_loss, Hs. split; [reflexivity|].
    intro Hk. apply round_nonneg.
    pose proof (Qsqr_nonneg (round s0 round_value)) as H1.
    pose proof (Qsqr_nonneg (m - target)) as H2.
    assert (H3 : 0 <= k * round s0 round_value ^ 2) by now apply Qmult_le_0_compat.
    lra.
  - intros Hs. rewrite stat_loss, Hs. reflexivity.
Qed.

Lemma taguchi_average_loss_witness :
  exists m out,
    round_num (mean [13; 17]) 1 = Fin m /\
    taguchi_loss_function (fun _ => Fin 2) [13; 17] 20 10 1 1 2 = Ok out /\
    (forall s0, (fun _ : list Q => Fin 2) [13; 17] = Fin s0 ->
       let s := round s0 1 in
       loss_of out =
         Some (Fin (round (1 * s ^ 2 + (m - round (10 + (20 - 10) / 2) 1) ^ 2) 1)) /\
       (0 <= 1 -> 0 <= round (1 * s ^ 2 + (m - round (10 + (20 - 10) / 2) 1) ^ 2) 1)) /\
    ((fun _ : list Q => Fin 2) [13; 17] = NaN -> loss_of out = Some NaN).
Proof.
  apply (taguchi_average_loss (fun _ => Fin 2) [13; 17] 20 10 1 1 2).
  discriminate.
Defined.

(** X11. One-sided average loss for a non-empty sample with rounded mean m:
    0 when m < target, whatever the standard deviation (even [nan]); for
    m >= target it is round(k*s^2 + (m-target)^2, precision) with a finite
    standard deviation rounded to s, and [nan] with a [nan] one.  At
    m = target the loss row is round(k*s^2, precision) although the slope
    row is 0. *)
Theorem one_sided_average_loss (std_of : list Q -> num) (data : list Q)
    (target spec_limit k : Q) (round_value : Z) (below_target past_spec : Q) :
  data <> [] ->
  exists m out,
    round_num (mean data) round_value = Fin m /\
    one_sided_loss_function std_of data target spec_limit k round_value
      below_target past_spec = Ok out /\
    (m < target -> loss_of out = Some (Fin 0)) /\
    (target <= m ->
       (forall s0, std_of data = Fin s0 ->
          loss_of out =
            Some (Fin (round (k * round s0 round_value ^ 2 + (m - target) ^ 2)
                         round_value))) /\
       (std_of data = NaN -> loss_of out = Some NaN)).
Proof.
  intro Hne. destruct (mean_nonempty data Hne) as [q Hq].
  pose proof (one_sided_closed_form std_of data target spec_limit k round_value
                below_target past_spec q Hq) as Hcf. cbv zeta in Hcf.
  exists (round q round_value). eexists.
  split; [rewrite Hq; reflexivity|]. split; [exact Hcf|].
  unfold loss_of. cbn [Results]. split.
  - intro Hlt. apply Qltb_true in Hlt. now rewrite stat_loss, Hlt.
  - intro Hge. apply Qltb_false in Hge. split.
    + intros s0 Hs. rewrite stat_loss, Hge, Hs. reflexivity.
    + intros Hs. rewrite stat_loss, Hge, Hs. reflexivity.
Qed.

Lemma one_sided_average_loss_witness :
  exists m out,
    round_num (mean [5]) 1 = Fin m /\
    one_sided_loss_function (fun _ => Fin 1) [5] 0 10 1 1 5 5 = Ok out /\
    (m < 0 -> loss_of out = Some (Fin 0)) /\
    (0 <= m ->
       (forall s0, (fun _ : list Q => Fin 1) [5] = Fin s0 ->
          loss_of out = Some (Fin (round (1 * round s0 1 ^ 2 + (m - 0) ^ 2) 1))) /\
       ((fun _ : list Q => Fin 1) [5] = NaN -> loss_of out = Some NaN)).
Proof.
  apply (one_sided_average_loss (fun _ => Fin 1) [5] 0 10 1 1 5 5).
  discriminate.
Defined.

(** X12. One-sided generator, specification limit > target, non-empty
    sample with rounded mean m.  For m <= spec_limit the slope row equals the
    curve's own loss at m (unrounded).  For m > spec_limit the slope row is 0
    while the curve at m carries the cap, which is strictly positive. *)
Theorem one_sided_slope_on_curve (std_of : list Q -> num) (data : list Q)
    (target spec_limit k : Q) (round_value : Z) (below_target past_spec : Q) :
  target < spec_limit -> data <> [] ->
  let tolerance := spec_limit - target in
  exists m s out,
    round_num (mean data) round_value = Fin m /\
    one_sided_loss_function std_of data target spec_limit k round_value
      below_target past_spec = Ok out /\
    slope_of out = Some (Fin s) /\
    (m <= spec_limit -> s == one_sided_loss target spec_limit tolerance m) /\
    (spec_limit < m ->
     s == 0 /\ 0 < one_sided_loss target spec_limit tolerance m).
Proof.
  intros Hrange Hne tolerance. destruct (mean_nonempty data Hne) as [q Hq].
  pose proof (one_sided_closed_form std_of data target spec_limit k round_value
                below_target past_spec q Hq) as Hcf. cbv zeta in Hcf.
  fold tolerance in Hcf.
  set (m := round q round_value) in *.
  exists m. eexists. eexists.
  split; [rewrite Hq; reflexivity|]. split; [exact Hcf|].
  clearbody m.
  unfold slope_of. cbn [Results]. rewrite stat_slope.
  split; [reflexivity|].
  assert (Htol : 0 < tolerance) by (subst tolerance; lra). clearbody tolerance.
  destruct (Qleb m target) eqn:E1.
  { apply Qleb_true in E1. split.
    - intros _. rewrite one_sided_loss_low by lra. reflexivity.
    - intro H. exfalso. lra. }
  apply Qleb_false in E1.
  destruct (Qleb m spec_limit) eqn:E2.
  - apply Qleb_true in E2. split.
    + intros _. destruct (Qlt_le_dec m spec_limit) as [Hlt|Hge].
      * rewrite one_sided_loss_mid, py_max_sqr by lra. reflexivity.
      * rewrite one_sided_loss_high by assumption.
        assert (Heq : m == spec_limit) by lra. now rewrite Heq.
    + intro H. exfalso. lra.
  - apply Qleb_false in E2. split.
    + intro H. exfalso. lra.
    + intros _. split; [reflexivity|].
      rewrite one_sided_loss_high by lra. simpl.
      repeat apply Qmult_lt_0_compat; lra.
Qed.

Lemma one_sided_slope_on_curve_witness :
  exists m s out,
    round_num (mean [12]) 1 = Fin m /\
    one_sided_loss_function (fun _ => Fin 1) [12] 0 10 1 1 5 5 = Ok out /\
    slope_of out = Some (Fin s) /\
    (m <= 10 -> s == one_sided_loss 0 10 (10 - 0) m) /\
    (10 < m -> s == 0 /\ 0 < one_sided_loss 0 10 (10 - 0) m).
Proof.
  apply (one_sided_slope_on_curve (fun _ => Fin 1) [12] 0 10 1 1 5 5).
  - reflexivity.
  - discriminate.
Defined.

(** X13. Two-sided generator, LSL < USL, non-empty sample whose rounded mean
    m is on or outside a limit: the slope row is 0, while the curve at m
    carries the flat value of that side, strictly positive whenever the
    target lies strictly between the limits. *)
Theorem taguchi_slope_off_curve (std_of : list Q -> num) (data : list Q)
    (USL LSL k : Q) (round_value : Z) (spec_buffer m : Q) :
  LSL < USL ->
  round_num (mean data) round_value = Fin m ->
  m <= LSL \/ USL <= m ->
  let tolerance := USL - LSL in
  let target := round (LSL + tolerance / 2) round_value in
  exists out,
    taguchi_loss_function std_of data USL LSL k round_value spec_buffer = Ok out /\
    slope_of out = Some (Fin 0) /\
    (LSL < target /\ target < USL ->
     0 < taguchi_loss USL LSL tolerance target m).
Proof.
  intros Hrange Hm Hout tolerance target.
  unfold taguchi_loss_function. rewrite Hm. fold tolerance. fold target.
  eexists. split; [reflexivity|].
  unfold slope_of. cbn [Results]. rewrite stat_slope, leb_Fin, geb_Fin.
  assert (Htol : 0 < tolerance) by (subst tolerance; lra).
  clearbody target tolerance. split.
  - destruct Hout as [H|H]; apply Qleb_true in H; rewrite H;
      [reflexivity | now rewrite orb_true_r].
  - intros [H1 H2]. destruct Hout as [H|H].
    + rewrite taguchi_loss_low by assumption. simpl.
      repeat apply Qmult_lt_0_compat; lra.
    + rewrite taguchi_loss_high by lra. simpl.
      repeat apply Qmult_lt_0_compat; lra.
Qed.

Lemma taguchi_slope_off_curve_witness :
  exists out,
    taguchi_loss_function (fun _ => Fin 2) [20] 20 10 1 1 2 = Ok out /\
    slope_of out = Some (Fin 0) /\
    (10 < round (10 + (20 - 10) / 2) 1 /\ round (10 + (20 - 10) / 2) 1 < 20 ->
     0 < taguchi_loss 20 10 (20 - 10) (round (10 + (20 - 10) / 2) 1) (round (20 / 1) 1)).
Proof.
  apply (taguchi_slope_off_curve (fun _ => Fin 2) [20] 20 10 1 1 2 (round (20 / 1) 1)).
  - reflexivity.
  - reflexivity.
  - right. vm_compute. discriminate.
Defined.


(** ** The height handed to the plot *)

Lemma idxmin_from_decreasing (s : list Q) (i best_i : nat) (best : Q) :
  s <> [] ->
  (forall a b va vb, (a < b)%nat ->
     nth_error (best :: s) a = Some va -> nth_error (best :: s) b = Some vb ->
     vb < va) ->
  idxmin_from s i best_i best = (i + List.length s - 1)%nat.
Proof.
  revert i best_i best. induction s as [|v r IH]; intros i best_i best Hne Hdec.
  - congruence.
  - cbn [idxmin_from].
    assert (Hv : Qltb v best = true).
    { apply Qltb_true. apply (Hdec 0%nat 1%nat); [lia | reflexivity | reflexivity]. }
    rewrite Hv. destruct r as [|w r'].
    + cbn. lia.
    + rewrite IH; [cbn [List.length]; lia | discriminate |].
      intros a b va vb Hab Ha Hb.
      apply (Hdec (S a) (S b)); [lia | exact Ha | exact Hb].
Qed.

Lemma idxmin_from_head (s : list Q) (i best_i : nat) (best : Q) :
  (forall v, In v s -> best <= v) -> idxmin_from s i best_i best = best_i.
Proof.
  revert i. induction s as [|v r IH]; intros i Hall; [reflexivity|].
  cbn [idxmin_from].
  assert (Hv : Qltb v best = false) by (apply Qltb_false; apply Hall; now left).
  rewrite Hv. apply IH. intros w Hw. apply Hall. now right.
Qed.

Lemma abs_column (f : Q -> Q) (xs : list Q) :
  map (fun row : Q * Q => Qabs (fst row - 15)) (combine xs (map f xs)) =
  map (fun x => Qabs (x - 15)) xs.
Proof.
  induction xs as [|x xs IH]; cbn [map combine]; [reflexivity|].
  f_equal. exact IH.
Qed.

(** Domain entirely at or left of 15: the closest sample is the last one. *)
Lemma y_at_spec_limits_left (f : Q -> Q) (start stop : Q) (n : nat) :
  (2 <= n)%nat -> start < stop -> stop <= 15 ->
  y_at_spec_limits
    (combine (linspace start stop n) (map f (linspace start stop n))) =
  Some (f stop).
Proof.
  intros Hn Hlt Hstop. unfold y_at_spec_limits. rewrite abs_column.
  set (xs := linspace start stop n).
  assert (Hlen : List.length xs = n) by apply linspace_length.
  assert (Hlast : nth_error xs (n - 1) = Some stop) by now apply linspace_last.
  assert (Hbound : forall j xj, nth_error xs j = Some xj -> xj <= stop).
  { intros j xj Hj.
    assert (Hjn : (j < n)%nat).
    { rewrite <- Hlen. apply nth_error_Some. congruence. }
    destruct (Nat.eq_dec j (n - 1)) as [->|Hneq].
    - assert (xj = stop) by congruence. subst xj. apply Qle_refl.
    - apply Qlt_le_weak.
      apply (linspace_increasing start stop n j (n - 1) xj stop Hlt);
        [lia | exact Hj | exact Hlast]. }
  assert (Hidx : idxmin (map (fun x => Qabs (x - 15)) xs) = Some (n - 1)%nat).
  { destruct xs as [|x0 r] eqn:Exs; [cbn in Hlen; lia|].
    cbn [map idxmin]. f_equal.
    destruct r as [|x1 r']; [cbn in Hlen; lia|].
    rewrite idxmin_from_decreasing.
    - rewrite length_map. cbn [List.length] in *. lia.
    - discriminate.
    - intros a b va vb Hab Ha Hb.
      change (Qabs (x0 - 15) :: map (fun x => Qabs (x - 15)) (x1 :: r'))
        with (map (fun x => Qabs (x - 15)) (x0 :: x1 :: r')) in Ha, Hb.
      rewrite nth_error_map in Ha, Hb.
      destruct (nth_error (x0 :: x1 :: r') a) as [xa|] eqn:Ea; [|discriminate].
      destruct (nth_error (x0 :: x1 :: r') b) as [xb|] eqn:Eb; [|discriminate].
      cbn [option_map] in Ha, Hb. injection Ha as <-. injection Hb as <-.
      pose proof (Hbound a xa Ea) as Ba. pose proof (Hbound b xb Eb) as Bb.
      assert (Hinc : xa < xb).
      { rewrite <- Exs in Ea, Eb.
        exact (linspace_increasing start stop n a b xa xb Hlt Hab Ea Eb). }
      rewrite (Qabs_neg (xa - 15)) by lra. rewrite (Qabs_neg (xb - 15)) by lra.
      lra. }
  rewrite Hidx, nth_error_frame. subst xs. rewrite Hlast. reflexivity.
Qed.

(** Domain entirely at or right of 15: the closest sample is the first. *)
Lemma y_at_spec_limits_right (f : Q -> Q) (start stop : Q) (n : nat) :
  (2 <= n)%nat -> start < stop -> 15 <= start ->
  exists x0,
    nth_error (linspace start stop n) 0 = Some x0 /\ x0 == start /\
    y_at_spec_limits
      (combine (linspace start stop n) (map f (linspace start stop n))) =
    Some (f x0).
Proof.
  intros Hn Hlt Hstart.
  destruct (linspace_nth_error start stop n 0) as [x0 [Hx0 Ex0]]; [lia | lia |].
  assert (E0 : x0 == start) by (rewrite Ex0; cbn [Z.of_nat]; ring).
  exists x0. split; [exact Hx0|]. split; [exact E0|].
  unfold y_at_spec_limits. rewrite abs_column.
  set (xs := linspace start stop n) in *.
  assert (Hidx : idxmin (map (fun x => Qabs (x - 15)) xs) = Some 0%nat).
  { destruct xs as [|y0 r] eqn:Exs; [discriminate|].
    cbn in Hx0. injection Hx0 as ->.
    cbn [map idxmin]. f_equal. apply idxmin_from_head.
    intros v Hv. apply in_map_iff in Hv. destruct Hv as [x [<- Hx]].
    apply In_nth_error in Hx. destruct Hx as [j Hj].
    assert (Hinc : x0 < x).
    { apply (linspace_increasing start stop n 0 (S j) x0 x Hlt); [lia | |].
      - fold xs. rewrite Exs. reflexivity.
      - fold xs. rewrite Exs. exact Hj. }
    rewrite (Qabs_pos (x0 - 15)) by lra. rewrite (Qabs_pos (x - 15)) by lra.
    lra. }
  rewrite Hidx, nth_error_frame. fold xs. rewrite Hx0. reflexivity.
Qed.

Example idxmin_first_minimum : idxmin [3; 1; 2; 1] = Some 1%nat.
Proof. reflexivity. Qed.

(** X15. Two-sided function, LSL < USL, non-negative buffer.  The height
    handed to the plot is read at the sample closest to x = 15, wherever the
    limits are: when the whole domain lies at or left of 15
    (USL + buffer <= 15) it is the upper flat value
    tolerance*(USL-target)^2, and when the whole domain lies at or right of
    15 (15 <= LSL - buffer) it is the lower flat value
    tolerance*(target-LSL)^2. *)
Theorem taguchi_y_at_spec_limits (std_of : list Q -> num) (data : list Q)
    (USL LSL k : Q) (round_value : Z) (spec_buffer : Q) :
  LSL < USL -> 0 <= spec_buffer ->
  let tolerance := USL - LSL in
  let target := round (LSL + tolerance / 2) round_value in
  exists out,
    taguchi_loss_function std_of data USL LSL k round_value spec_buffer = Ok out /\
    (USL + spec_buffer <= 15 ->
     y_at_spec_limits (Loss_Curve out) = Some (tolerance * (USL - target) ^ 2)) /\
    (15 <= LSL - spec_buffer ->
     y_at_spec_limits (Loss_Curve out) = Some (tolerance * (target - LSL) ^ 2)).
Proof.
  intros Hrange Hbuf tolerance target.
  destruct (taguchi_table std_of data USL LSL k round_value spec_buffer)
    as [out [Hout Hcurve]].
  fold tolerance in Hcurve. fold target in Hcurve. cbv zeta in Hcurve.
  exists out. split; [exact Hout|]. rewrite Hcurve. split.
  - intro H15. rewrite y_at_spec_limits_left; [|lia|lra|exact H15].
    rewrite taguchi_loss_high by lra. reflexivity.
  - intro H15.
    destruct (y_at_spec_limits_right (taguchi_loss USL LSL tolerance target)
                (LSL - spec_buffer) (USL + spec_buffer) 500)
      as [x0 [_ [E0 Hy]]]; [lia | lra | exact H15 |].
    rewrite Hy. rewrite taguchi_loss_low by lra. reflexivity.
Qed.

Lemma taguchi_y_at_spec_limits_witness :
  exists out,
    taguchi_loss_function (fun _ => Fin 1) [5] 8 2 1 1 2 = Ok out /\
    (8 + 2 <= 15 ->
     y_at_spec_limits (Loss_Curve out) =
       Some ((8 - 2) * (8 - round (2 + (8 - 2) / 2) 1) ^ 2)) /\
    (15 <= 2 - 2 ->
     y_at_spec_limits (Loss_Curve out) =
       Some ((8 - 2) * (round (2 + (8 - 2) / 2) 1 - 2) ^ 2)).
Proof.
  apply (taguchi_y_at_spec_limits (fun _ => Fin 1) [5] 8 2 1 1 2).
  - reflexivity.
  - discriminate.
Defined.

(** X16. One-sided function, specification limit > target, non-negative
    margins, non-empty sample.  The height handed to the plot is read at the
    sample closest to x = 15: when the whole domain lies at or left of 15
    (spec_limit + past_spec <= 15) it is the cap
    tolerance*(spec_limit-target)^2, and when the whole domain lies at or
    right of 15 (15 <= target - below_target) it is 0. *)
Theorem one_sided_y_at_spec_limit (std_of : list Q -> num) (data : list Q)
    (target spec_limit k : Q) (round_value : Z) (below_target past_spec : Q) :
  target < spec_limit -> 0 <= below_target -> 0 <= past_spec -> data <> [] ->
  let tolerance := spec_limit - target in
  exists out,
    one_sided_loss_function std_of data target spec_limit k round_value
      below_target past_spec = Ok out /\
    (spec_limit + past_spec <= 15 ->
     y_at_spec_limits (Loss_Curve out) =
       Some (tolerance * (spec_limit - target) ^ 2)) /\
    (15 <= target - below_target ->
     y_at_spec_limits (Loss_Curve out) = Some 0).
Proof.
  intros Hrange Hbelow Hpast Hne tolerance.
  destruct (one_sided_returns std_of data target spec_limit k round_value
              below_target past_spec Hne) as [out [Hout Hcurve]].
  fold tolerance in Hcurve. cbv zeta in Hcurve.
  exists out. split; [exact Hout|]. rewrite Hcurve. split.
  - intro H15. rewrite y_at_spec_limits_left; [|lia|lra|exact H15].
    rewrite one_sided_loss_high by lra. reflexivity.
  - intro H15.
    destruct (y_at_spec_limits_right (one_sided_loss target spec_limit tolerance)
                (target - below_target) (spec_limit + past_spec) 500)
      as [x0 [_ [E0 Hy]]]; [lia | lra | exact H15 |].
    rewrite Hy. rewrite one_sided_loss_low by lra. reflexivity.
Qed.

Lemma one_sided_y_at_spec_limit_witness :
  exists out,
    one_sided_loss_function (fun _ => Fin 1) [5] 0 10 1 1 5 5 = Ok out /\
    (10 + 5 <= 15 ->
     y_at_spec_limits (Loss_Curve out) = Some ((10 - 0) * (10 - 0) ^ 2)) /\
    (15 <= 0 - 5 -> y_at_spec_limits (Loss_Curve out) = Some 0).
Proof.
  apply (one_sided_y_at_spec_limit (fun _ => Fin 1) [5] 0 10 1 1 5 5).
  - reflexivity.
  - discriminate.
  - discriminate.
  - discriminate.
Defined.


(** X18. For LSL <= USL no row of the two-sided table exceeds the larger of
    the two flat values, wherever rounding has put the target. *)
Theorem taguchi_curve_bounded (std_of : list Q -> num) (data : list Q)
    (USL LSL k : Q) (round_value : Z) (spec_buffer : Q) :
  LSL <= USL ->
  let tolerance := USL - LSL in
  let target := round (LSL + tolerance / 2) round_value in
  exists out,
    taguchi_loss_function std_of data USL LSL k round_value spec_buffer = Ok out /\
    forall x y, In (x, y) (Loss_Curve out) ->
      y <= Qmax (tolerance * (target - LSL) ^ 2) (tolerance * (USL - target) ^ 2).
Proof.
  intros Hrange tolerance target.
  destruct (taguchi_rows std_of data USL LSL k round_value spec_buffer)
    as [out [Hout [_ Hrows]]].
  fold tolerance in Hrows. fold target in Hrows.
  assert (Htol : 0 <= tolerance) by (subst tolerance; lra).
  clearbody target tolerance.
  exists out. split; [exact Hout|]. intros x y Hin. rewrite (Hrows x y Hin).
  destruct (Qlt_le_dec LSL x) as [L|L].
  - destruct (Qlt_le_dec x USL) as [U|U].
    + rewrite taguchi_loss_mid by assumption.
      destruct (Qlt_le_dec target x) as [T|T].
      * apply Qle_trans with (tolerance * (USL - target) ^ 2);
          [|apply Q.le_max_r].
        apply scaled_sqr_le; [exact Htol | left; split; lra].
      * apply Qle_trans with (tolerance * (target - LSL) ^ 2);
          [|apply Q.le_max_l].
        apply scaled_sqr_le; [exact Htol | left; split; lra].
    + rewrite taguchi_loss_high by assumption. apply Q.le_max_r.
  - rewrite taguchi_loss_low by assumption. apply Q.le_max_l.
Qed.

Lemma taguchi_curve_bounded_witness :
  exists out,
    taguchi_loss_function (fun _ => Fin 2) [13; 17] 20 10 1 1 2 = Ok out /\
    forall x y, In (x, y) (Loss_Curve out) ->
      y <= Qmax ((20 - 10) * (round (10 + (20 - 10) / 2) 1 - 10) ^ 2)
                ((20 - 10) * (20 - round (10 + (20 - 10) / 2) 1) ^ 2).
Proof.
  apply (taguchi_curve_bounded (fun _ => Fin 2) [13; 17] 20 10 1 1 2).
  discriminate.
Defined.
